(** * peeweext: timezone-safe temporal field, lifecycle signals, smart databases

    A shallow embedding of [peeweext/__init__.py].  Python values are an
    inductive type, attribute stores and keyword arguments are finite maps,
    and code that raises or mutates runs in a small state-and-exception
    monad in which a raised exception keeps the mutations made so far. *)

From stdpp Require Import gmap strings list.

Local Open Scope string_scope.
Local Open Scope Z_scope.
Local Open Scope list_scope.

(** ** Python values *)

(** A [tzinfo] object answers [utcoffset()] with a fixed offset (in
    microseconds) or with [None]. *)
Inductive tzinfo :=
  | FixedOffset (off : Z)
  | NoOffset.

(** [datetime.datetime]: the wall-clock reading, counted in microseconds
    from 0001-01-01T00:00:00, and the attached [tzinfo], if any. *)
Record datetime := mk_datetime {
  wall : Z;
  dt_tzinfo : option tzinfo
}.

#[warnings="-register-all"]
Inductive pyval :=
  | VNone
  | VBool (b : bool)
  | VInt (z : Z)
  | VStr (s : string)
  | VDatetime (d : datetime)
  | VPendulum (d : datetime)          (* pendulum.Pendulum around [_datetime] *)
  | VDict (kvs : list (string * pyval)).

(** Built-in exception classes the module raises or lets through. *)
Inductive exn :=
  | ValueError (msg : string)
  | AttributeError (msg : string)
  | OverflowError (msg : string)
  | TypeError (msg : string)
  | HostError (cls msg : string).

Inductive outcome (A : Type) :=
  | Return (a : A)
  | Raise (e : exn).
Arguments Return {A} a.
Arguments Raise {A} e.

Definition obind {A B} (o : outcome A) (k : A → outcome B) : outcome B :=
  match o with
  | Return a => k a
  | Raise e => Raise e
  end.

(** [bool(v)] *)
Definition truthy (v : pyval) : bool :=
  match v with
  | VNone => false
  | VBool b => b
  | VInt z => negb (z =? 0)
  | VStr s => negb (String.eqb s "")
  | VDatetime _ | VPendulum _ => true
  | VDict kvs => match kvs with [] => false | _ => true end
  end.

(** [a or b] answers [a] when it is truthy, [b] otherwise. *)
Definition py_or (a b : pyval) : pyval := if truthy a then a else b.

Definition is_None (v : pyval) : bool :=
  match v with VNone => true | _ => false end.

(** [isinstance(v, datetime.datetime)]; a [Pendulum] is a [datetime]. *)
Definition as_datetime (v : pyval) : option datetime :=
  match v with
  | VDatetime d | VPendulum d => Some d
  | _ => None
  end.

(** [isinstance(v, pendulum.Pendulum)] *)
Definition is_Pendulum (v : pyval) : bool :=
  match v with VPendulum _ => true | _ => false end.

(** ** datetime arithmetic *)

(** What the attached [tzinfo] answers for the value, [tzinfo.utcoffset(d)],
    and [None] when none is attached. *)
Definition utcoffset (d : datetime) : option Z :=
  match dt_tzinfo d with
  | Some (FixedOffset off) => Some off
  | Some NoOffset | None => None
  end.

(** One day and one minute, in microseconds. *)
Definition DAY : Z := 86400 * 1000000.
Definition MINUTE : Z := 60 * 1000000.

(** The offsets [datetime] accepts: strictly within a day of zero. *)
Definition offset_ok (off : Z) : bool := (- DAY <? off) && (off <? DAY).

Definition OFFSET_MSG : string :=
  "offset must be a timedelta strictly between -timedelta(hours=24) and timedelta(hours=24).".

(** [d.utcoffset()]: the answer of the [tzinfo], refused with [ValueError]
    when it is not an offset [datetime] accepts. *)
Definition datetime_utcoffset (d : datetime) : outcome (option Z) :=
  match utcoffset d with
  | Some off => if offset_ok off then Return (Some off) else Raise (ValueError OFFSET_MSG)
  | None => Return None
  end.

Definition timezone_utc : tzinfo := FixedOffset 0.

(** Readings from 0001-01-01 up to, not including, 10000-01-01. *)
Definition MAX_WALL : Z := 3652059 * 86400 * 1000000.

Definition representable (w : Z) : bool := (0 <=? w) && (w <? MAX_WALL).

(** [d.astimezone(datetime.timezone.utc)].  The receiver's offset is asked
    for, as [d.utcoffset()] does, and subtracted, which overflows outside
    the years 1..9999; a naive receiver is read in the system's zone, whose
    offset is [system_offset]. *)
Definition astimezone_utc (system_offset : Z) (d : datetime) : outcome datetime :=
  obind (datetime_utcoffset d) (λ offset,
  let off := default system_offset offset in
  let u := wall d - off in
  if representable u
  then Return {| wall := u; dt_tzinfo := Some timezone_utc |}
  else Raise (OverflowError "date value out of range")).

(** Python's [round] of an offset counted in minutes: the nearest whole
    minute, a tie going to the even one. *)
Definition nearest_minute (off : Z) : Z :=
  let q := Z.div off MINUTE in
  let r := Z.modulo off MINUTE in
  MINUTE * (if 2 * r <? MINUTE then q
            else if MINUTE <? 2 * r then q + 1
            else if Z.even q then q else q + 1).

(** [pendulum.instance(dt)]: the same wall-clock reading in [dt.tzinfo or
    UTC]; a foreign [tzinfo] is replaced by a fixed zone at its offset,
    which pendulum keeps to the whole minute. *)
Definition pendulum_instance (d : datetime) : outcome pyval :=
  match dt_tzinfo d with
  | None => Return (VPendulum {| wall := wall d; dt_tzinfo := Some timezone_utc |})
  | Some (FixedOffset off) =>
      Return (VPendulum {| wall := wall d;
                           dt_tzinfo := Some (FixedOffset (nearest_minute off)) |})
  | Some NoOffset =>
      Raise (AttributeError "'NoneType' object has no attribute 'total_seconds'")
  end.

(** The same on Python values: [isinstance(v, datetime.datetime)],
    [v.utcoffset()], [v._datetime] and
    [v.astimezone(datetime.timezone.utc)]. *)
Definition isinstance_datetime (v : pyval) : bool :=
  match as_datetime v with Some _ => true | None => false end.

Definition py_utcoffset (v : pyval) : outcome (option Z) :=
  match as_datetime v with
  | Some d => datetime_utcoffset d
  | None => Raise (AttributeError "utcoffset")
  end.

Definition _datetime (v : pyval) : pyval :=
  match v with VPendulum d => VDatetime d | _ => v end.

Definition py_astimezone_utc (system_offset : Z) (v : pyval) : outcome pyval :=
  match as_datetime v with
  | Some d => obind (astimezone_utc system_offset d) (λ u, Return (VDatetime u))
  | None => Raise (AttributeError "astimezone")
  end.

(** An aware value denotes an instant: its reading less its offset.  Two
    aware values are equal in Python when their instants are. *)
Definition is_aware (d : datetime) : bool :=
  match utcoffset d with Some _ => true | None => false end.

Definition instant (d : datetime) : option Z :=
  off ← utcoffset d; Some (wall d - off).

(** "[t] converted to UTC", where the host can represent it. *)
Definition to_utc (t : datetime) : option datetime :=
  i ← instant t;
  if representable i
  then Some {| wall := i; dt_tzinfo := Some timezone_utc |}
  else None.

(** ** The host: what the module imports and calls but does not define *)

Definition attrs := gmap string pyval.
Definition kwargs := gmap string pyval.

(** A callable argument, or a plain value passed in its place. *)
Definition pyarg : Type := (pyval → outcome pyval) + pyval.

Definition arg_truthy (a : pyarg) : bool :=
  match a with
  | inl _ => true
  | inr v => truthy v
  end.

Class Host := {
  DB : Type;
  system_offset : Z;
  (* pendulum.parse *)
  pendulum_parse : string → outcome pyval;
  (* peewee.Model.save / delete_instance on the record's attributes *)
  pw_save : list pyval → gmap string pyval → gmap string pyval → DB →
            outcome pyval * gmap string pyval * DB;
  pw_delete_instance : list pyval → gmap string pyval → gmap string pyval → DB →
            outcome pyval * gmap string pyval * DB;
  (* playhouse.shortcuts *)
  model_to_dict : gmap string pyval → gmap string pyval → outcome pyval;
  update_model_from_dict : gmap string pyval → pyval → pyval →
            outcome pyval * gmap string pyval;
  (* the exception the update helper raises on a name it does not know *)
  UnknownField : string → exn;
  (* playhouse.dataset.JSONExporter.default *)
  JSONExporter_default : pyval → outcome pyval;
  (* peeweext.utils.cast_dict *)
  cast_dict : pyval → pyarg → outcome pyval
}.

(** ** DatetimeTZField *)

Section DatetimeTZField.
Context `{Host}.

Definition python_value (value : pyval) : outcome pyval :=
  match value with
  | VStr s => pendulum_parse s
  | VDatetime d | VPendulum d => pendulum_instance d
  | _ => Return value
  end.

Definition db_value (value : pyval) : outcome pyval :=
  if is_None value then Return value
  else if negb (isinstance_datetime value)
  then Raise (ValueError "datetime instance required")
  else
    obind (py_utcoffset value) (λ offset,
    match offset with
    | None => Raise (ValueError "timezone aware datetime required")
    | Some _ =>
        let value := if is_Pendulum value then _datetime value else value in
        py_astimezone_utc system_offset value
    end).
End DatetimeTZField.

(** ** State and exceptions *)

(** A computation over a store [S]: it answers or raises, and in both cases
    hands back the store as it left it. *)
Definition M (S A : Type) : Type := S → outcome A * S.

#[export] Instance M_ret {S} : MRet (M S) := λ A a s, (Return a, s).

#[export] Instance M_bind {S} : MBind (M S) := λ A B k m s,
  match m s with
  | (Return a, s') => k a s'
  | (Raise e, s') => (Raise e, s')
  end.

Definition raise {S A} (e : exn) : M S A := λ s, (Raise e, s).
Definition of_outcome {S A} (o : outcome A) : M S A := λ s, (o, s).
Definition gets {S A} (f : S → A) : M S A := λ s, (Return (f s), s).
Definition modify {S} (f : S → S) : M S unit := λ s, (Return tt, f s).

Ltac unfold_M :=
  unfold mbind, M_bind, mret, M_ret, raise, gets, modify in *.

(** ** Records, the clock and the signal registry *)

(** What a receiver can reach: the attributes of the record the signal is
    about, and the system clock (the successive readings, and how many
    were taken). *)
Record world := mk_world {
  w_attrs : gmap string pyval;
  w_clock : nat → Z;
  w_ticks : nat
}.

Definition getattr (name : string) : M world pyval :=
  gets (λ w, default VNone (w_attrs w !! name)).

Definition setattr (name : string) (v : pyval) : M world unit :=
  modify (λ w, mk_world (<[name := v]> (w_attrs w)) (w_clock w) (w_ticks w)).

(** [pendulum.utcnow()] *)
Definition utcnow : M world pyval := λ w,
  (Return (VPendulum {| wall := w_clock w (w_ticks w);
                        dt_tzinfo := Some timezone_utc |}),
   mk_world (w_attrs w) (w_clock w) (S (w_ticks w))).

(** A model class: its name, the attribute that holds the primary key, the
    options gathered on [_meta], and the plain defaults of its own fields. *)
Record model_class := mk_class {
  cls_name : string;
  cls_pk : string;
  cls_meta : gmap string pyval;
  cls_defaults : gmap string pyval
}.

(** The sender of a signal: a subclass of [Model], another class, or an
    object that is no class at all. *)
Inductive sender :=
  | SModel (c : model_class)
  | SOther (name : string)
  | SObject (repr : string).

(** [issubclass(sender, Model)], which refuses what is not a class. *)
Definition issubclass_Model (s : sender) : outcome bool :=
  match s with
  | SModel _ => Return true
  | SOther _ => Return false
  | SObject _ => Raise (TypeError "issubclass() arg 1 must be a class")
  end.

Inductive signal_name := pre_save | post_save | pre_delete | post_delete | pre_init.

#[export] Instance signal_name_eq_dec : EqDecision signal_name.
Proof. solve_decision. Defined.

(** A receiver is called with the sender and the [created] keyword when the
    signal carries one; the instance is the record of the world. *)
Definition receiver : Type := sender → option pyval → M world unit.

(** The receivers of each signal, in the order a dispatch visits them.
    blinker keeps them in a set and promises no order; what is proved of
    [send] below is proved for every list. *)
Definition registry : Type := signal_name → list receiver.

Definition no_receivers : registry := λ _, [].

(** [sig.connect(r)]: the receiver joins those of the signal.  It is put
    last here, which is one of the orders a dispatch may take. *)
Definition connect (reg : registry) (sig : signal_name) (r : receiver) : registry :=
  λ s, if decide (s = sig) then reg s ++ [r] else reg s.

(** [sig.send(sender, ...)]: every receiver in turn; the first exception
    ends the dispatch and reaches the caller. *)
Fixpoint run_receivers (rs : list receiver) (s : sender) (created : option pyval)
  : M world unit :=
  match rs with
  | [] => mret tt
  | r :: rs' => _ ← r s created; run_receivers rs' s created
  end.

Definition _touch_model : receiver := λ sender created,
  is_model ← of_outcome (issubclass_Model sender);
  if (is_model : bool)
  then now ← utcnow; setattr "updated_at" now
  else mret tt.

(** The registry once the module is loaded: [pre_save.connect(_touch_model)]. *)
Definition module_registry : registry := connect no_receivers pre_save _touch_model.

(** ** Model *)

(** What the program did, in order: signals sent and calls handed to the
    base class, with the record's attributes at the moment of the call. *)
Inductive event :=
  | EvSend (sig : signal_name) (s : sender) (created : option pyval)
  | EvBaseInit (args : list pyval) (kw : gmap string pyval)
  | EvBaseSave (self : gmap string pyval) (args : list pyval) (kw : gmap string pyval)
  | EvBaseDelete (self : gmap string pyval) (args : list pyval) (kw : gmap string pyval).

(** [Meta] of [Model], as written in the class body. *)
Definition Model_Meta : gmap string pyval :=
  {[ "model_to_dict_config" :=
       VDict [ ("recurse", VBool true);
               ("backrefs", VBool false);
               ("only", VBool true);
               ("exclude", VBool true);
               ("seen", VBool true);
               ("extra_attrs", VNone);
               ("fields_from_query", VNone);
               ("max_depth", VNone);
               ("manytomany", VBool false) ];
     "message_class" := VNone ]}.

(** The fields [Model] declares, each with [default=pendulum.utcnow]. *)
Definition Model_fields : list string := ["created_at"; "updated_at"].

Definition Model_class : model_class :=
  {| cls_name := "Model"; cls_pk := "id";
     cls_meta := Model_Meta; cls_defaults := ∅ |}.

(** [a.b] on [_meta] *)
Definition meta_getattr (c : model_class) (name : string) : outcome pyval :=
  match cls_meta c !! name with
  | Some v => Return v
  | None => Raise (AttributeError name)
  end.

(** [d.copy()] *)
Definition dict_copy (v : pyval) : outcome (list (string * pyval)) :=
  match v with
  | VDict kvs => Return kvs
  | _ => Raise (AttributeError "copy")
  end.

(** [**d] in a call *)
Definition as_kwargs (v : pyval) : outcome (gmap string pyval) :=
  match v with
  | VDict kvs => Return (list_to_map kvs)
  | _ => Raise (TypeError "argument after ** must be a mapping")
  end.

(** Host behaviour, not part of the sources: [peewee.Model.__init__] fills
    the record with the plain defaults of the class, calls each callable
    default, then assigns the keyword arguments. *)
Fixpoint call_defaults (names : list string) : M world unit :=
  match names with
  | [] => mret tt
  | n :: names' => v ← utcnow; _ ← setattr n v; call_defaults names'
  end.

Definition pw_Model_init (c : model_class) (args : list pyval)
    (kw : gmap string pyval) : M world unit :=
  _ ← modify (λ w, mk_world (cls_defaults c) (w_clock w) (w_ticks w));
  _ ← call_defaults Model_fields;
  modify (λ w, mk_world (kw ∪ w_attrs w) (w_clock w) (w_ticks w)).

Section Model.
Context `{Host}.

Record state := mk_state {
  st_world : world;
  st_db : DB;
  st_log : list event
}.

Definition log (ev : event) : M state unit :=
  modify (λ st, mk_state (st_world st) (st_db st) (st_log st ++ [ev])).

(** Run a receiver-level computation on the record of the state. *)
Definition on_world {A} (m : M world A) : M state A := λ st,
  let '(r, w) := m (st_world st) in
  (r, mk_state w (st_db st) (st_log st)).

Definition send (reg : registry) (sig : signal_name) (s : sender)
    (created : option pyval) : M state unit :=
  _ ← log (EvSend sig s created);
  on_world (run_receivers (reg sig) s created).

(** [super().__init__(...)] *)
Definition super_init (c : model_class) (args : list pyval)
    (kw : gmap string pyval) : M state unit :=
  _ ← log (EvBaseInit args kw);
  on_world (pw_Model_init c args kw).

(** [super().save(...)] *)
Definition super_save (args : list pyval) (kw : gmap string pyval) : M state pyval :=
  λ st,
  let self := w_attrs (st_world st) in
  let '(r, self', db') := pw_save args kw self (st_db st) in
  (r, mk_state (mk_world self' (w_clock (st_world st)) (w_ticks (st_world st)))
               db' (st_log st ++ [EvBaseSave self args kw])).

(** [super().delete_instance(...)] *)
Definition super_delete_instance (args : list pyval) (kw : gmap string pyval)
  : M state pyval := λ st,
  let self := w_attrs (st_world st) in
  let '(r, self', db') := pw_delete_instance args kw self (st_db st) in
  (r, mk_state (mk_world self' (w_clock (st_world st)) (w_ticks (st_world st)))
               db' (st_log st ++ [EvBaseDelete self args kw])).

(** [self._pk] *)
Definition _pk (c : model_class) : M state pyval :=
  on_world (getattr (cls_pk c)).

Definition created_flag (kw : gmap string pyval) (pk_value : pyval) : pyval :=
  py_or (default (VBool false) (kw !! "force_insert"))
        (VBool (negb (truthy pk_value))).

(** The flag [save] computes for the record of a state. *)
Definition created_of (c : model_class) (kw : gmap string pyval) (st : state) : pyval :=
  created_flag kw (default VNone (w_attrs (st_world st) !! cls_pk c)).

Definition Model_init (c : model_class) (reg : registry)
    (args : list pyval) (kw : gmap string pyval) : M state unit :=
  _ ← super_init c args kw;
  send reg pre_init (SModel c) None.

Definition Model_save (c : model_class) (reg : registry)
    (args : list pyval) (kw : gmap string pyval) : M state pyval :=
  pk_value ← _pk c;
  let created := created_flag kw pk_value in
  _ ← send reg pre_save (SModel c) (Some created);
  ret ← super_save args kw;
  _ ← send reg post_save (SModel c) (Some created);
  mret ret.

Definition Model_delete_instance (c : model_class) (reg : registry)
    (args : list pyval) (kw : gmap string pyval) : M state pyval :=
  _ ← send reg pre_delete (SModel c) None;
  ret ← super_delete_instance args kw;
  _ ← send reg post_delete (SModel c) None;
  mret ret.

(** [ignore_unknown=False] when the caller leaves it out. *)
Definition Model_update_from_dict (self : gmap string pyval) (data : pyval)
    (ignore_unknown : option pyval) : outcome pyval * gmap string pyval :=
  update_model_from_dict self data (default (VBool false) ignore_unknown).

(** [default=dataset.JSONExporter.default] when the caller leaves it out;
    [_meta] is looked up twice, under names [Meta] does not declare, and
    the merged [default_kwargs] is not the mapping handed on. *)
Definition Model_to_dict (c : model_class) (self : gmap string pyval)
    (default_ : option pyarg) (kw : gmap string pyval) : outcome pyval :=
  let default_ := default (inl JSONExporter_default) default_ in
  obind (meta_getattr c "serialize_config") (λ sc,
  obind (dict_copy sc) (λ default_kwargs,
  let default_kwargs : gmap string pyval := kw ∪ list_to_map default_kwargs in
  obind (meta_getattr c "default_kwargs") (λ dk,
  obind (as_kwargs dk) (λ dk,
  obind (model_to_dict self dk) (λ d,
  if arg_truthy default_ then cast_dict d default_ else Return d))))).
End Model.

(** Modelled from the spec: the host library's "update fields from mapping"
    helper, [playhouse.shortcuts.update_model_from_dict], which the sources
    call but do not contain.  For a schema that recognises the names in
    [known], the keys of the mapping are taken in turn: a recognised name is
    assigned; an unrecognised one fails the call with the error the spec
    calls [UnknownField], which is the host's [AttributeError], unless
    [ignore_unknown] is truthy, and then it is skipped. *)
Fixpoint update_fields (known : gset string) (self : gmap string pyval)
    (kvs : list (string * pyval)) (ignore_unknown : bool)
  : outcome pyval * gmap string pyval :=
  match kvs with
  | [] => (Return VNone, self)
  | (key, value) :: rest =>
      if bool_decide (key ∈ known)
      then update_fields known (<[key := value]> self) rest ignore_unknown
      else if ignore_unknown then update_fields known self rest ignore_unknown
      else (Raise (AttributeError key), self)
  end.

Definition spec_update_model_from_dict (known : gset string)
    (self : gmap string pyval) (data ignore_unknown : pyval)
  : outcome pyval * gmap string pyval :=
  match data with
  | VDict kvs => update_fields known self kvs (truthy ignore_unknown)
  | _ => (Raise (AttributeError "items"), self)
  end.

(** A host, with the helper as the spec describes it in place of its own. *)
Definition with_spec_update (known : gset string) (H : Host) : Host :=
  {| DB := @DB H;
     system_offset := @system_offset H;
     pendulum_parse := @pendulum_parse H;
     pw_save := @pw_save H;
     pw_delete_instance := @pw_delete_instance H;
     model_to_dict := @model_to_dict H;
     update_model_from_dict := spec_update_model_from_dict known;
     UnknownField := AttributeError;
     JSONExporter_default := @JSONExporter_default H;
     cast_dict := @cast_dict H |}.

(** A receiver, or a base-class operation, that leaves one attribute of the
    record as it found it. *)
Definition receiver_keeps (f : string) (r : receiver) : Prop :=
  ∀ s created w, w_attrs (r s created w).2 !! f = w_attrs w !! f.

Definition registry_keeps (f : string) (reg : registry) : Prop :=
  ∀ sig r, r ∈ reg sig → receiver_keeps f r.

Definition base_keeps `{Host} (f : string)
    (op : list pyval → gmap string pyval → gmap string pyval → DB →
          outcome pyval * gmap string pyval * DB) : Prop :=
  ∀ args kw self db, (op args kw self db).1.2 !! f = self !! f.

(** ** SmartDatabase *)

Inductive db_event :=
  | DbEnter
  | DbExecute (args : list pyval) (kw : gmap string pyval)
  | DbExit (exc : option exn).

(** The pooled database class a smart class is mixed with. *)
Class Pooled := {
  conn : Type;
  in_transaction : conn → bool;
  pool_execute : list pyval → gmap string pyval → conn → outcome pyval * conn;
  (* connection_context(): __enter__ and __exit__ *)
  ctx_enter : conn → outcome unit * conn;
  ctx_exit : option exn → conn → outcome pyval * conn
}.

(** [with cm: body]: [__exit__] runs whenever [__enter__] answered; it sees
    the exception of the body, and a truthy answer swallows it. *)
Definition with_ {S A} (enter : M S unit) (exit : option exn → M S pyval)
    (body : M S A) : M S (option A) := λ s,
  match enter s with
  | (Raise e, s1) => (Raise e, s1)
  | (Return _, s1) =>
      match body s1 with
      | (Return a, s2) =>
          match exit None s2 with
          | (Return _, s3) => (Return (Some a), s3)
          | (Raise e', s3) => (Raise e', s3)
          end
      | (Raise e, s2) =>
          match exit (Some e) s2 with
          | (Return v, s3) => if truthy v then (Return None, s3) else (Raise e, s3)
          | (Raise e', s3) => (Raise e', s3)
          end
      end
  end.

Section SmartDatabase.
Context `{Pooled}.

(** The connection state and the trace of what was done to it. *)
Definition db_state : Type := conn * list db_event.

Definition traced {A} (ev : db_event) (op : conn → outcome A * conn)
  : M db_state A := λ s,
  let '(r, c') := op s.1 in (r, (c', s.2 ++ [ev])).

Definition super_execute (args : list pyval) (kw : gmap string pyval)
  : M db_state pyval :=
  traced (DbExecute args kw) (pool_execute args kw).

Definition connection_context_enter : M db_state unit := traced DbEnter ctx_enter.

Definition connection_context_exit (exc : option exn) : M db_state pyval :=
  traced (DbExit exc) (ctx_exit exc).

Definition execute (args : list pyval) (kw : gmap string pyval) : M db_state pyval :=
  tx ← gets (λ s : db_state, in_transaction s.1);
  if (tx : bool) then super_execute args kw
  else
    r ← with_ connection_context_enter connection_context_exit
              (super_execute args kw);
    (* a swallowed exception falls off the end of the method *)
    mret (default VNone r).
End SmartDatabase.

(** ** Notions of the specification *)

(** A primary-key value is set when the attribute holds something other
    than [None]. *)
Definition pk_is_set (pk : pyval) : bool := negb (is_None pk).

(** The caller asked for a forced insert through the keyword. *)
Definition force_insert_requested (kw : gmap string pyval) : bool :=
  truthy (default (VBool false) (kw !! "force_insert")).

(** The [created] flag as the specification words it: no primary-key value set, or a
    forced insert requested. *)
Definition created_as_stated (kw : gmap string pyval) (pk : pyval) : bool :=
  negb (pk_is_set pk) || force_insert_requested kw.

(** [a <= b] on aware values compares instants. *)
Definition dt_le (a b : datetime) : bool :=
  match instant a, instant b with
  | Some i, Some j => i <=? j
  | _, _ => false
  end.

(** The reading [utcnow] takes in a world. *)
Definition reading (w : world) : datetime :=
  {| wall := w_clock w (w_ticks w); dt_tzinfo := Some timezone_utc |}.

(** The world after [_touch_model] ran on a record of a model class. *)
Definition touch (w : world) : world :=
  mk_world (<["updated_at" := VPendulum (reading w)]> (w_attrs w))
           (w_clock w) (S (w_ticks w)).

(** Some receiver of the list raises [e] when its turn comes, those before
    it having answered; [w1] is the world as it leaves it. *)
Definition receiver_raises (rs : list receiver) (s : sender) (created : option pyval)
    (w : world) (e : exn) (w1 : world) : Prop :=
  ∃ rs1 r rs2 w',
    rs = rs1 ++ r :: rs2
    ∧ run_receivers rs1 s created w = (Return tt, w')
    ∧ r s created w' = (Raise e, w1).

(** The exception an outcome carries, as [__exit__] receives it. *)
Definition raised {A} (r : outcome A) : option exn :=
  match r with Raise e => Some e | Return _ => None end.

(** ** A small host to run the definitions on *)

Definition toy_known : list string := ["id"; "name"; "created_at"; "updated_at"].

Fixpoint toy_update (self : gmap string pyval) (kvs : list (string * pyval))
    (ign : bool) : outcome pyval * gmap string pyval :=
  match kvs with
  | [] => (Return VNone, self)
  | (k, v) :: rest =>
      if bool_decide (k ∈ toy_known) then toy_update (<[k := v]> self) rest ign
      else if ign then toy_update self rest ign
      else (Raise (AttributeError k), self)
  end.

(** Rows are counted; an insert hands out the next key. *)
Definition toy_save (args : list pyval) (kw self : gmap string pyval) (n : nat)
  : outcome pyval * gmap string pyval * nat :=
  match self !! "id" with
  | None | Some VNone => (Return (VInt 1), <["id" := VInt (Z.of_nat (S n))]> self, S n)
  | Some _ => (Return (VInt 1), self, n)
  end.

Definition toy_delete (args : list pyval) (kw self : gmap string pyval) (n : nat)
  : outcome pyval * gmap string pyval * nat :=
  (Return (VInt 1), self, Nat.pred n).

Definition toy_host : Host :=
  {| DB := nat;
     system_offset := 0;
     pendulum_parse := λ s, Raise (HostError "ParserError" s);
     pw_save := toy_save;
     pw_delete_instance := toy_delete;
     model_to_dict := λ self kw, Return (VDict (map_to_list self));
     update_model_from_dict := λ self data ign,
       match data with
       | VDict kvs => toy_update self kvs (truthy ign)
       | _ => (Raise (AttributeError "items"), self)
       end;
     UnknownField := AttributeError;
     JSONExporter_default := Return;
     cast_dict := λ d f, Return d |}.

(** A pool with one connection: the state counts the open scopes and tells
    whether a transaction is active. *)
Definition toy_pool : Pooled :=
  {| conn := bool * nat;
     in_transaction := fst;
     pool_execute := λ args kw c,
       match args with
       | [] => (Raise (HostError "OperationalError" "no statement"), c)
       | _ => (Return (VInt 1), c)
       end;
     ctx_enter := λ c, (Return tt, (c.1, S c.2));
     ctx_exit := λ exc c, (Return VNone, (c.1, Nat.pred c.2)) |}.

(** A value whose offset is a full hour ahead of UTC, late in 2018. *)
Definition sample_local : datetime :=
  {| wall := 63681418800000000; dt_tzinfo := Some (FixedOffset 3600000000) |}.

(** Sample worlds: a clock that reads 1000, 1001, ...; a record not yet
    saved; a record whose key is [0]. *)
Definition sample_clock : nat → Z := λ n, 1000 + Z.of_nat n.

Definition fresh_world : world := mk_world ∅ sample_clock 0.

Definition fresh_state : state (H := toy_host) :=
  mk_state (H := toy_host) fresh_world 0%nat [].

Definition zero_pk_state : state (H := toy_host) :=
  mk_state (H := toy_host) (mk_world {[ "id" := VInt 0 ]} sample_clock 0) 0%nat [].

(** The fresh record after [_touch_model], and after the toy insert. *)
Definition touched_world : world :=
  mk_world (<["updated_at" := VPendulum (reading fresh_world)]> ∅) sample_clock 1.

Definition saved_world : world :=
  mk_world (<["id" := VInt 1]> (w_attrs touched_world)) sample_clock 1.

(** A receiver that fails, and a registry that has it on every [pre_]
    signal, after the module's own receiver. *)
Definition failing_receiver : receiver :=
  λ _ _, raise (HostError "RuntimeError" "observer failed").

Definition failing_registry : registry :=
  connect (connect (connect module_registry pre_save failing_receiver)
                   pre_delete failing_receiver)
          pre_init failing_receiver.

(** A record stamped later than the clock reads. *)
Definition future_stamp : datetime :=
  {| wall := 5000; dt_tzinfo := Some timezone_utc |}.

Definition future_state : state (H := toy_host) :=
  mk_state (H := toy_host)
    (mk_world {[ "id" := VInt 7; "updated_at" := VPendulum future_stamp ]}
              sample_clock 0) 3%nat [].

(** Samples for the helpers: a mapping with a name outside the toy schema,
    and connection states outside and inside a transaction. *)
Definition sample_data : list (string * pyval) :=
  [("name", VStr "a"); ("colour", VStr "red")].

Definition idle_conn : db_state (H := toy_pool) := ((false, 0%nat), []).
Definition busy_conn : db_state (H := toy_pool) := ((true, 1%nat), []).

Definition edge_local : datetime :=
  {| wall := 0; dt_tzinfo := Some (FixedOffset 3600000000) |}.

(** ** JSON export *)

(** [json.dumps], which the module imports. *)
Class Json := {
  json_dumps : pyval → gmap string pyval → outcome string
}.

(** [to_json]: the keyword arguments go to [json.dumps]; [to_dict] is
    called with none, and with its own default for [default]. *)
Definition Model_to_json `{Host} `{Json} (c : model_class) (self : gmap string pyval)
    (kw : gmap string pyval) : outcome string :=
  obind (Model_to_dict c self None ∅) (λ d, json_dumps d kw).

(** ** Smart classes and their URL schemes *)

Definition _smarts : list (string * list string) :=
  [ ("SmartMySQLDatabase", ["mysql+smart"]);
    ("SmartPostgresqlDatabase", ["postgres+smart"; "postgresql+smart"]);
    ("SmartPostgresqlExtDatabase", ["postgresext+smart"; "postgresqlext+smart"]);
    ("SmartSqliteDatabase", ["sqlite+smart"]);
    ("SmartSqliteExtDatabase", ["sqliteext+smart"]);
    ("SmartCSqliteExtDatabase", ["csqliteext+smart"]) ].

(** [s[k:]] *)
Fixpoint string_drop (k : nat) (s : string) : string :=
  match k, s with
  | O, _ => s
  | S k', String _ s' => string_drop k' s'
  | S _, EmptyString => EmptyString
  end.

(** ['Pooled{}'.format(n[5:])] *)
Definition pooled_name (n : string) : string :=
  String.append "Pooled" (string_drop 5 n).

(** A class made by [type(n, (SmartDatabase, pc), {})]. *)
Record smart_class := mk_smart {
  sc_name : string;
  sc_bases : list string
}.

(** What the loop writes to: the scheme table of [db_url] and the globals
    of the module. *)
Record namespaces := mk_ns {
  ns_schemes : gmap string smart_class;
  ns_globals : gmap string smart_class
}.

(** [getattr(pool, name)]: the attributes of [playhouse.pool] hold a class,
    named here, or [None]; a name that is no attribute raises. *)
Definition pool_getattr (pool : gmap string (option string)) (name : string)
  : M namespaces (option string) :=
  match pool !! name with
  | Some pc => mret pc
  | None => raise (AttributeError name)
  end.

(** [db_url.register_database(cls, *names)] *)
Definition register_database (cls : smart_class) (names : list string)
    (schemes : gmap string smart_class) : gmap string smart_class :=
  foldl (λ m name, <[name := cls]> m) schemes names.

(** The loop over [_smarts.items()], in the order the table is written. *)
Fixpoint register_smarts (pool : gmap string (option string))
    (entries : list (string * list string)) : M namespaces unit :=
  match entries with
  | [] => mret tt
  | (n, urls) :: rest =>
      pc ← pool_getattr pool (pooled_name n);
      _ ← match pc with
          | Some pc =>
              let smart_cls := mk_smart n ["SmartDatabase"; pc] in
              modify (λ ns, mk_ns (register_database smart_cls urls (ns_schemes ns))
                                  (<[n := smart_cls]> (ns_globals ns)))
          | None => mret tt
          end;
      register_smarts pool rest
  end.

(** ** More samples *)

(** A host whose base class refuses every write. *)
Definition refusing_save (args : list pyval) (kw self : gmap string pyval) (n : nat)
  : outcome pyval * gmap string pyval * nat :=
  (Raise (HostError "IntegrityError" "constraint failed"), self, n).

Definition refusing_host : Host :=
  {| DB := nat;
     system_offset := 0;
     pendulum_parse := λ s, Raise (HostError "ParserError" s);
     pw_save := refusing_save;
     pw_delete_instance := refusing_save;
     model_to_dict := λ self kw, Return (VDict (map_to_list self));
     update_model_from_dict := λ self data ign, (Return VNone, self);
     UnknownField := AttributeError;
     JSONExporter_default := Return;
     cast_dict := λ d f, Return d |}.

Definition toy_json : Json :=
  {| json_dumps := λ d kw, Return "{}"%string |}.

(** A pool whose connection cannot be opened. *)
Definition closed_pool : Pooled :=
  {| conn := unit;
     in_transaction := λ _, false;
     pool_execute := λ args kw c, (Return (VInt 1), c);
     ctx_enter := λ c, (Raise (HostError "OperationalError" "cannot connect"), c);
     ctx_exit := λ exc c, (Return VNone, c) |}.

(** A registry whose [post_save] receiver fails. *)
Definition late_failing_registry : registry :=
  connect module_registry post_save failing_receiver.

(** A saved record, keyed [7]. *)
Definition stored_state : state (H := toy_host) :=
  mk_state (H := toy_host) (mk_world {[ "id" := VInt 7 ]} sample_clock 0) 3%nat [].

Definition stored_state_refusing : state (H := refusing_host) :=
  mk_state (H := refusing_host) (mk_world {[ "id" := VInt 7 ]} sample_clock 0) 3%nat [].

(** A class whose [Meta] provides the names [to_dict] looks up, and the same
    class with another [model_to_dict_config]. *)
Definition configured_class : model_class :=
  {| cls_name := "Note"; cls_pk := "id";
     cls_meta := <["serialize_config" := VDict [("recurse", VBool false)]]>
                 (<["default_kwargs" := VDict [("recurse", VBool false)]]> Model_Meta);
     cls_defaults := ∅ |}.

Definition reconfigured_class : model_class :=
  {| cls_name := "Note"; cls_pk := "id";
     cls_meta := <["model_to_dict_config" := VNone]> (cls_meta configured_class);
     cls_defaults := ∅ |}.

(** [playhouse.pool] with every pooled class, and without the extension
    classes of PostgreSQL. *)
Definition full_pool : gmap string (option string) :=
  list_to_map
    [ ("PooledMySQLDatabase", Some "PooledMySQLDatabase");
      ("PooledPostgresqlDatabase", Some "PooledPostgresqlDatabase");
      ("PooledPostgresqlExtDatabase", None);
      ("PooledSqliteDatabase", Some "PooledSqliteDatabase");
      ("PooledSqliteExtDatabase", Some "PooledSqliteExtDatabase");
      ("PooledCSqliteExtDatabase", Some "PooledCSqliteExtDatabase") ].

Definition empty_ns : namespaces := mk_ns ∅ ∅.

(** The same instant as [sample_local], at UTC; and its reading with no
    offset attached. *)
Definition sample_utc : datetime :=
  {| wall := 63681415200000000; dt_tzinfo := Some timezone_utc |}.

Definition sample_naive : datetime :=
  {| wall := 63681415200000000; dt_tzinfo := None |}.

(** A value whose [tzinfo] answers a full day. *)
Definition day_ahead : datetime :=
  {| wall := 63681418800000000; dt_tzinfo := Some (FixedOffset 86400000000) |}.

(** * Properties *)

(** ** DatetimeTZField *)

Lemma nearest_minute_whole m : nearest_minute (MINUTE * m) = MINUTE * m.
Proof.
  unfold nearest_minute.
  rewrite (Z.mul_comm MINUTE m), Z.div_mul, Z.mod_mul by done.
  simpl. lia.
Qed.

Lemma nearest_minute_idempotent off :
  nearest_minute (nearest_minute off) = nearest_minute off.
Proof. unfold nearest_minute at 2 3. apply nearest_minute_whole. Qed.

Section DatetimeTZField_facts.
Context `{Host}.

Lemma db_value_None : db_value VNone = Return VNone.
Proof. reflexivity. Qed.

Lemma db_value_not_datetime v :
  v ≠ VNone → as_datetime v = None →
  db_value v = Raise (ValueError "datetime instance required").
Proof.
  intros Hv Hd. unfold db_value, isinstance_datetime.
  rewrite Hd. destruct v; simpl in *; congruence.
Qed.

(** What [db_value] does with a datetime, path by path. *)
Lemma db_value_datetime v d :
  as_datetime v = Some d →
  db_value v =
    match utcoffset d with
    | None => Raise (ValueError "timezone aware datetime required")
    | Some off =>
        if offset_ok off
        then if representable (wall d - off)
             then Return (VDatetime {| wall := wall d - off;
                                       dt_tzinfo := Some timezone_utc |})
             else Raise (OverflowError "date value out of range")
        else Raise (ValueError OFFSET_MSG)
    end.
Proof.
  intros Hd.
  unfold db_value, isinstance_datetime, py_utcoffset, py_astimezone_utc,
    astimezone_utc, datetime_utcoffset.
  destruct v; simpl in Hd; try discriminate; simplify_eq; simpl;
    (destruct (utcoffset d) as [off|]; simpl; [|done];
     destruct (offset_ok off); simpl; [|done];
     by destruct (representable _)).
Qed.

(** C1, as the code has it. For every timezone-aware datetime [t] (plain
    or Pendulum) whose offset is one [datetime] accepts and whose
    conversion to UTC [u] the host can represent, reading back what the
    field writes, [python_value(db_value(t))], answers a timezone-aware
    value with the reading of [u], at offset zero, denoting the same
    instant as [t]. *)
Theorem field_round_trip (v : pyval) (t u : datetime) (off : Z) :
  as_datetime v = Some t →
  utcoffset t = Some off →
  offset_ok off = true →
  to_utc t = Some u →
  ∃ p, obind (db_value v) python_value = Return (VPendulum p)
       ∧ is_aware p = true
       ∧ utcoffset p = Some 0
       ∧ wall p = wall u
       ∧ instant p = instant t.
Proof.
  intros Hv Hoff Hok Hu.
  rewrite (db_value_datetime _ _ Hv), Hoff, Hok.
  unfold to_utc, instant in Hu. rewrite Hoff in Hu. simpl in Hu.
  destruct (representable _); [|done]. simplify_eq. simpl.
  eexists. split; [reflexivity|].
  unfold is_aware, instant. rewrite Hoff. simpl.
  change (nearest_minute 0) with 0.
  repeat split. f_equal. lia.
Qed.

(** C2, as the code has it. [db_value] raises [ValueError] exactly when
    its input is not [None] and is either not a datetime (message "datetime
    instance required"), or a naive datetime (message "timezone aware
    datetime required"), or a datetime whose [tzinfo] answers an offset
    that [datetime] does not accept (the message of the standard library);
    [None] is answered unchanged. *)
Theorem db_value_raises_iff (v : pyval) (msg : string) :
  db_value VNone = Return VNone
  ∧ (db_value v = Raise (ValueError msg)
     ↔ v ≠ VNone
       ∧ ((as_datetime v = None ∧ msg = "datetime instance required")
          ∨ (∃ d, as_datetime v = Some d ∧ is_aware d = false
                  ∧ msg = "timezone aware datetime required")
          ∨ (∃ d off, as_datetime v = Some d ∧ utcoffset d = Some off
                      ∧ offset_ok off = false ∧ msg = OFFSET_MSG))).
Proof.
  split; [reflexivity|]. split.
  - intros Hr.
    assert (Hn : v ≠ VNone) by (intros ->; discriminate).
    split; [done|].
    destruct (as_datetime v) as [d|] eqn:Hd.
    + right. rewrite (db_value_datetime _ _ Hd) in Hr.
      unfold is_aware. destruct (utcoffset d) as [off|] eqn:Hoff.
      * right. exists d, off. destruct (offset_ok off) eqn:Hok.
        -- by destruct (representable _).
        -- by simplify_eq.
      * left. exists d. rewrite Hoff. by simplify_eq.
    + left. rewrite db_value_not_datetime in Hr by done. naive_solver.
  - intros [Hn [[Hd ->]|[(d & Hd & Ha & ->)|(d & off & Hd & Hoff & Hok & ->)]]].
    + by apply db_value_not_datetime.
    + rewrite (db_value_datetime _ _ Hd). unfold is_aware in Ha.
      by destruct (utcoffset d).
    + by rewrite (db_value_datetime _ _ Hd), Hoff, Hok.
Qed.
End DatetimeTZField_facts.

Lemma field_round_trip_witness :
  ∃ p, obind (db_value (H := toy_host) (VDatetime sample_local))
             (python_value (H := toy_host)) = Return (VPendulum p)
       ∧ is_aware p = true
       ∧ utcoffset p = Some 0
       ∧ wall p = 63681415200000000
       ∧ instant p = instant sample_local.
Proof.
  apply (field_round_trip (H := toy_host) (VDatetime sample_local) sample_local
           {| wall := 63681415200000000; dt_tzinfo := Some timezone_utc |}
           3600000000);
    reflexivity.
Defined.

(** An aware value in the first hour of year 1, one hour ahead of UTC: the
    conversion overflows, so nothing is written and nothing reads back. *)
Lemma field_round_trip_counterexample :
  is_aware edge_local = true
  ∧ obind (db_value (H := toy_host) (VDatetime edge_local))
          (python_value (H := toy_host))
    = Raise (OverflowError "date value out of range").
Proof. split; reflexivity. Qed.

(** A datetime whose [tzinfo] answers a full day: it is a datetime, and not
    a naive one, yet writing it raises [ValueError]. *)
Lemma db_value_raises_counterexample :
  as_datetime (VDatetime day_ahead) = Some day_ahead
  ∧ is_aware day_ahead = true
  ∧ db_value (H := toy_host) (VDatetime day_ahead) = Raise (ValueError OFFSET_MSG).
Proof. repeat split. Qed.

(** ** Signals and the lifecycle methods *)

Lemma truthy_py_or a b : truthy (py_or a b) = truthy a || truthy b.
Proof. unfold py_or. destruct (truthy a) eqn:E; simpl; by rewrite ?E. Qed.

Lemma touch_model_run c cr w :
  _touch_model (SModel c) cr w =
    (Return tt, mk_world (<["updated_at" := VPendulum (reading w)]> (w_attrs w))
                         (w_clock w) (S (w_ticks w))).
Proof. reflexivity. Qed.

Lemma run_receivers_keeps f rs s cr w :
  (∀ r, r ∈ rs → receiver_keeps f r) →
  w_attrs (run_receivers rs s cr w).2 !! f = w_attrs w !! f.
Proof.
  revert w. induction rs as [|r rs IH]; intros w Hk; [done|].
  simpl. unfold_M.
  pose proof (Hk r ltac:(left) s cr w) as Hr.
  destruct (r s cr w) as [[[]|e] w1]; simpl in *; [|done].
  rewrite IH; [done|]. intros r' Hr'. apply Hk. by right.
Qed.

Lemma touch_model_keeps f : f ≠ "updated_at" → receiver_keeps f _touch_model.
Proof.
  intros Hf [c|n|n] cr w; [|done|done].
  rewrite touch_model_run. simpl. by rewrite lookup_insert_ne.
Qed.

Lemma module_registry_keeps f : f ≠ "updated_at" → registry_keeps f module_registry.
Proof.
  intros Hf sig r. unfold module_registry, connect, no_receivers.
  case_decide; simpl; [|by intros ?%elem_of_nil].
  intros ->%list_elem_of_singleton. by apply touch_model_keeps.
Qed.

Section Model_facts.
Context `{Host}.

Lemma send_run reg sig s cr st :
  send reg sig s cr st =
    (let '(r, w) := run_receivers (reg sig) s cr (st_world st) in
     (r, mk_state w (st_db st) (st_log st ++ [EvSend sig s cr]))).
Proof. reflexivity. Qed.

Lemma Model_save_run c reg args kw st :
  Model_save c reg args kw st =
    (let created := created_of c kw st in
     match send reg pre_save (SModel c) (Some created) st with
     | (Raise e, st1) => (Raise e, st1)
     | (Return _, st1) =>
         match super_save args kw st1 with
         | (Raise e, st2) => (Raise e, st2)
         | (Return ret, st2) =>
             match send reg post_save (SModel c) (Some created) st2 with
             | (Raise e, st3) => (Raise e, st3)
             | (Return _, st3) => (Return ret, st3)
             end
         end
     end).
Proof.
  unfold Model_save, created_of. unfold_M. simpl.
  destruct st as [[a ck tk] db lg]; simpl.
  destruct (send _ _ _ _ _) as [[?|?] ?]; [|done].
  destruct (super_save _ _ _) as [[?|?] ?]; [|done].
  by destruct (send _ _ _ _ _) as [[?|?] ?].
Qed.

Lemma Model_delete_instance_run c reg args kw st :
  Model_delete_instance c reg args kw st =
    match send reg pre_delete (SModel c) None st with
    | (Raise e, st1) => (Raise e, st1)
    | (Return _, st1) =>
        match super_delete_instance args kw st1 with
        | (Raise e, st2) => (Raise e, st2)
        | (Return ret, st2) =>
            match send reg post_delete (SModel c) None st2 with
            | (Raise e, st3) => (Raise e, st3)
            | (Return _, st3) => (Return ret, st3)
            end
        end
    end.
Proof.
  unfold Model_delete_instance. unfold_M.
  destruct (send _ _ _ _ _) as [[?|?] ?]; [|done].
  destruct (super_delete_instance _ _ _) as [[?|?] ?]; [|done].
  by destruct (send _ _ _ _ _) as [[?|?] ?].
Qed.

Lemma super_save_run args kw st :
  super_save args kw st =
    (let '(r, self', db') := pw_save args kw (w_attrs (st_world st)) (st_db st) in
     (r, mk_state (mk_world self' (w_clock (st_world st)) (w_ticks (st_world st)))
                  db' (st_log st ++ [EvBaseSave (w_attrs (st_world st)) args kw]))).
Proof. reflexivity. Qed.

Lemma super_delete_instance_run args kw st :
  super_delete_instance args kw st =
    (let '(r, self', db') := pw_delete_instance args kw (w_attrs (st_world st)) (st_db st) in
     (r, mk_state (mk_world self' (w_clock (st_world st)) (w_ticks (st_world st)))
                  db' (st_log st ++ [EvBaseDelete (w_attrs (st_world st)) args kw]))).
Proof. reflexivity. Qed.

Lemma created_of_truthy c kw st :
  truthy (created_of c kw st)
  = force_insert_requested kw
    || negb (truthy (default VNone (w_attrs (st_world st) !! cls_pk c))).
Proof. unfold created_of, created_flag. by rewrite truthy_py_or. Qed.
(** Whatever happens next, [save] first sends [pre_save] with its flag. *)
Lemma Model_save_log_head c reg args kw st :
  ∃ rest, st_log (Model_save c reg args kw st).2
          = st_log st ++ EvSend pre_save (SModel c) (Some (created_of c kw st)) :: rest.
Proof.
  rewrite Model_save_run. simpl. rewrite send_run.
  destruct (run_receivers (reg pre_save) _ _ _) as [[[]|e] w1]; simpl;
    [|by exists []].
  rewrite super_save_run. simpl.
  destruct (pw_save _ _ _ _) as [[[ret|e] self2] db2]; simpl;
    [|eexists; by rewrite <- app_assoc].
  rewrite send_run. simpl.
  destruct (run_receivers (reg post_save) _ _ _) as [[[]|e] w3]; simpl;
    eexists; by rewrite <- !app_assoc.
Qed.

(** C3, as the code has it. The flag [save] computes is truthy exactly when
    the [force_insert] keyword is truthy or the primary-key value is falsy.
    When the receivers and the base class answer, [pre_save] is sent with
    that flag before the base [save] is called, [post_save] is sent with the
    same flag after it, and the answer of the base class is the answer of
    [save]. *)
Theorem save_emits_and_returns c reg args kw st w1 ret self2 db2 w3 :
  let created := created_of c kw st in
  run_receivers (reg pre_save) (SModel c) (Some created) (st_world st)
    = (Return tt, w1) →
  pw_save args kw (w_attrs w1) (st_db st) = (Return ret, self2, db2) →
  run_receivers (reg post_save) (SModel c) (Some created)
                (mk_world self2 (w_clock w1) (w_ticks w1)) = (Return tt, w3) →
  truthy created
    = force_insert_requested kw
      || negb (truthy (default VNone (w_attrs (st_world st) !! cls_pk c)))
  ∧ Model_save c reg args kw st
    = (Return ret,
       mk_state w3 db2
         (st_log st ++ [EvSend pre_save (SModel c) (Some created);
                        EvBaseSave (w_attrs w1) args kw;
                        EvSend post_save (SModel c) (Some created)])).
Proof.
  intros created Hpre Hsave Hpost. split; [apply created_of_truthy|].
  rewrite Model_save_run. fold created. simpl.
  rewrite send_run, Hpre. rewrite super_save_run. simpl. rewrite Hsave.
  rewrite send_run. simpl. rewrite Hpost.
  by rewrite <- !app_assoc.
Qed.

(** C10. When the primary-key attribute holds a value that is set but
    falsy, such as [0] or the empty string, [save] sends [pre_save] with a
    truthy flag, which is [True] itself unless a truthy [force_insert] took
    its place. *)
Theorem save_falsy_pk_is_created c reg args kw st pk :
  w_attrs (st_world st) !! cls_pk c = Some pk →
  pk_is_set pk = true →
  truthy pk = false →
  ∃ created rest,
    st_log (Model_save c reg args kw st).2
      = st_log st ++ EvSend pre_save (SModel c) (Some created) :: rest
    ∧ truthy created = true
    ∧ (force_insert_requested kw = false → created = VBool true).
Proof.
  intros Hpk _ Hfalsy.
  destruct (Model_save_log_head c reg args kw st) as [rest Hlog].
  exists (created_of c kw st), rest. split; [done|].
  split.
  - rewrite created_of_truthy, Hpk. simpl. rewrite Hfalsy. apply orb_true_r.
  - unfold force_insert_requested, created_of, created_flag, py_or.
    intros ->. rewrite Hpk. simpl. by rewrite Hfalsy.
Qed.
Lemma run_receivers_raises rs s cr w e w1 :
  receiver_raises rs s cr w e w1 → run_receivers rs s cr w = (Raise e, w1).
Proof.
  intros (rs1 & r & rs2 & w' & -> & Hrs1 & Hr).
  revert w Hrs1. induction rs1 as [|r1 rs1 IH]; intros w Hrs1; simpl in *.
  - unfold_M. simplify_eq. by rewrite Hr.
  - unfold_M. destruct (r1 s cr w) as [[[]|e1] w2]; [|done]. by apply IH.
Qed.

Lemma pw_Model_init_run c args kw w :
  pw_Model_init c args kw w =
    (Return tt,
     mk_world (kw ∪ <["updated_at" :=
                        VPendulum {| wall := w_clock w (S (w_ticks w));
                                     dt_tzinfo := Some timezone_utc |}]>
                      (<["created_at" := VPendulum (reading w)]> (cls_defaults c)))
              (w_clock w) (S (S (w_ticks w)))).
Proof. reflexivity. Qed.

Lemma Model_init_run c reg args kw st :
  Model_init c reg args kw st =
    (let '(r, w) := run_receivers (reg pre_init) (SModel c) None
                      (pw_Model_init c args kw (st_world st)).2 in
     (r, mk_state w (st_db st)
                  (st_log st ++ [EvBaseInit args kw; EvSend pre_init (SModel c) None]))).
Proof.
  unfold Model_init, super_init, send, log, on_world. unfold_M. simpl.
  destruct (run_receivers _ _ _ _) as [r w]. by rewrite <- app_assoc.
Qed.

(** [save] under the registry of the module: the record is touched, then
    handed to the base class; [post_save] has no receiver. *)
Lemma Model_save_module_registry c args kw st :
  Model_save c module_registry args kw st =
    (let w1 := touch (st_world st) in
     let created := created_of c kw st in
     let '(r, self2, db2) := pw_save args kw (w_attrs w1) (st_db st) in
     (r, mk_state (mk_world self2 (w_clock w1) (w_ticks w1)) db2
           (st_log st
            ++ EvSend pre_save (SModel c) (Some created)
               :: EvBaseSave (w_attrs w1) args kw
               :: match r with
                  | Return _ => [EvSend post_save (SModel c) (Some created)]
                  | Raise _ => []
                  end))).
Proof.
  rewrite Model_save_run. unfold send, super_save, log, on_world, touch.
  unfold_M. simpl.
  destruct (pw_save _ _ _ _) as [[[ret|e] self2] db2]; simpl;
    by rewrite <- !app_assoc.
Qed.

(** C8. When a receiver of [pre_save], [pre_delete] or [pre_init] raises,
    the method raises that very exception; the base [save] or
    [delete_instance] is not called and the database is as it was. *)
Theorem pre_receiver_exception_aborts c reg args kw st e w1 :
  (receiver_raises (reg pre_save) (SModel c) (Some (created_of c kw st))
                   (st_world st) e w1 →
   Model_save c reg args kw st
   = (Raise e,
      mk_state w1 (st_db st)
        (st_log st ++ [EvSend pre_save (SModel c) (Some (created_of c kw st))])))
  ∧ (receiver_raises (reg pre_delete) (SModel c) None (st_world st) e w1 →
     Model_delete_instance c reg args kw st
     = (Raise e,
        mk_state w1 (st_db st) (st_log st ++ [EvSend pre_delete (SModel c) None])))
  ∧ (receiver_raises (reg pre_init) (SModel c) None
                     (pw_Model_init c args kw (st_world st)).2 e w1 →
     Model_init c reg args kw st
     = (Raise e,
        mk_state w1 (st_db st)
          (st_log st ++ [EvBaseInit args kw; EvSend pre_init (SModel c) None]))).
Proof.
  split; [|split]; intros Hr%run_receivers_raises.
  - rewrite Model_save_run. simpl. by rewrite send_run, Hr.
  - rewrite Model_delete_instance_run. by rewrite send_run, Hr.
  - rewrite Model_init_run. by rewrite Hr.
Qed.
Lemma Model_save_keeps f c reg args kw st :
  registry_keeps f reg → base_keeps f pw_save →
  w_attrs (st_world (Model_save c reg args kw st).2) !! f
  = w_attrs (st_world st) !! f.
Proof.
  intros Hreg Hbase. rewrite Model_save_run. simpl. rewrite send_run.
  pose proof (run_receivers_keeps f (reg pre_save) (SModel c)
                (Some (created_of c kw st)) (st_world st) (Hreg pre_save)) as Hpre.
  destruct (run_receivers (reg pre_save) _ _ _) as [[[]|e] w1]; simpl in *; [|done].
  rewrite super_save_run. simpl.
  pose proof (Hbase args kw (w_attrs w1) (st_db st)) as Hb.
  destruct (pw_save _ _ _ _) as [[[ret|e] self2] db2]; simpl in *;
    [|by rewrite Hb].
  rewrite send_run. simpl.
  pose proof (run_receivers_keeps f (reg post_save) (SModel c)
                (Some (created_of c kw st))
                (mk_world self2 (w_clock w1) (w_ticks w1)) (Hreg post_save)) as Hpost.
  destruct (run_receivers (reg post_save) _ _ _) as [[[]|e] w3]; simpl in *;
    by rewrite Hpost, Hb.
Qed.

Lemma Model_delete_instance_keeps f c reg args kw st :
  registry_keeps f reg → base_keeps f pw_delete_instance →
  w_attrs (st_world (Model_delete_instance c reg args kw st).2) !! f
  = w_attrs (st_world st) !! f.
Proof.
  intros Hreg Hbase. rewrite Model_delete_instance_run. rewrite send_run.
  pose proof (run_receivers_keeps f (reg pre_delete) (SModel c) None
                (st_world st) (Hreg pre_delete)) as Hpre.
  destruct (run_receivers (reg pre_delete) _ _ _) as [[[]|e] w1]; simpl in *; [|done].
  rewrite super_delete_instance_run. simpl.
  pose proof (Hbase args kw (w_attrs w1) (st_db st)) as Hb.
  destruct (pw_delete_instance _ _ _ _) as [[[ret|e] self2] db2]; simpl in *;
    [|by rewrite Hb].
  rewrite send_run. simpl.
  pose proof (run_receivers_keeps f (reg post_delete) (SModel c) None
                (mk_world self2 (w_clock w1) (w_ticks w1)) (Hreg post_delete)) as Hpost.
  destruct (run_receivers (reg post_delete) _ _ _) as [[[]|e] w3]; simpl in *;
    by rewrite Hpost, Hb.
Qed.

Lemma Model_save_updated_at c args kw st :
  base_keeps "updated_at" pw_save →
  w_attrs (st_world (Model_save c module_registry args kw st).2) !! "updated_at"
  = Some (VPendulum (reading (st_world st))).
Proof.
  intros Hbase. rewrite Model_save_module_registry. simpl.
  pose proof (Hbase args kw (w_attrs (touch (st_world st))) (st_db st)) as Hb.
  destruct (pw_save _ _ _ _) as [[r self2] db2]; simpl in *.
  rewrite Hb. apply lookup_insert_eq.
Qed.

(** C4, as the code has it. Under the registry of the module, [save] hands
    the record to the base class with [updated_at] already set to the
    clock's UTC reading; when the base class leaves that attribute alone it
    still holds the reading after the save, which is timezone-aware, and is
    not earlier than a previous aware value whose instant the clock had
    reached. *)
Theorem save_touches_updated_at c args kw st :
  base_keeps "updated_at" pw_save →
  let st' := (Model_save c module_registry args kw st).2 in
  let now := reading (st_world st) in
  (∃ rest,
     st_log st'
     = st_log st
       ++ EvSend pre_save (SModel c) (Some (created_of c kw st))
          :: EvBaseSave (<["updated_at" := VPendulum now]> (w_attrs (st_world st)))
                        args kw
          :: rest)
  ∧ w_attrs (st_world st') !! "updated_at" = Some (VPendulum now)
  ∧ is_aware now = true
  ∧ (∀ v old i,
       w_attrs (st_world st) !! "updated_at" = Some v →
       as_datetime v = Some old → instant old = Some i →
       i ≤ wall now → dt_le old now = true).
Proof.
  intros Hbase st' now. repeat split.
  - subst st'. rewrite Model_save_module_registry. simpl.
    destruct (pw_save _ _ _ _) as [[r self2] db2]; simpl. by eexists.
  - by apply Model_save_updated_at.
  - intros v old i _ _ Hi Hle. unfold dt_le. rewrite Hi. simpl.
    apply Z.leb_le. subst now. simpl in Hle. lia.
Qed.

(** C9. A record built without a [created_at] argument gets the clock's
    reading as [created_at]. Afterwards neither [save] nor
    [delete_instance] changes [created_at], as long as the receivers and
    the base class leave it alone, as the module's own receiver does; and
    under the registry of the module every [save] sets [updated_at] to the
    reading the clock gives then. *)
Theorem created_at_kept_updated_at_refreshed c reg args kw kw0 st :
  registry_keeps "created_at" reg →
  base_keeps "created_at" pw_save →
  base_keeps "created_at" pw_delete_instance →
  base_keeps "updated_at" pw_save →
  kw0 !! "created_at" = None →
  registry_keeps "created_at" module_registry
  ∧ w_attrs (st_world (Model_init c reg args kw0 st).2) !! "created_at"
    = Some (VPendulum (reading (st_world st)))
  ∧ w_attrs (st_world (Model_save c reg args kw st).2) !! "created_at"
    = w_attrs (st_world st) !! "created_at"
  ∧ w_attrs (st_world (Model_delete_instance c reg args kw st).2) !! "created_at"
    = w_attrs (st_world st) !! "created_at"
  ∧ w_attrs (st_world (Model_save c module_registry args kw st).2) !! "updated_at"
    = Some (VPendulum (reading (st_world st))).
Proof.
  intros Hreg Hsave Hdel Hupd Hkw0.
  split; [by apply module_registry_keeps|].
  split; [|split; [by apply Model_save_keeps|
           split; [by apply Model_delete_instance_keeps|
                   by apply Model_save_updated_at]]].
  rewrite Model_init_run.
  pose proof (run_receivers_keeps "created_at" (reg pre_init) (SModel c) None
                (pw_Model_init c args kw0 (st_world st)).2 (Hreg pre_init)) as Hk.
  destruct (run_receivers _ _ _ _) as [r w]. simpl in *.
  rewrite Hk.
  rewrite lookup_union_r by done.
  rewrite lookup_insert_ne by done. apply lookup_insert_eq.
Qed.
End Model_facts.

Lemma save_emits_and_returns_witness :
  truthy (created_of (H := toy_host) Model_class ∅ fresh_state)
    = force_insert_requested ∅
      || negb (truthy (default VNone
                 (w_attrs (st_world fresh_state) !! cls_pk Model_class)))
  ∧ Model_save (H := toy_host) Model_class module_registry [] ∅ fresh_state
    = (Return (VInt 1),
       mk_state (H := toy_host) saved_world 1%nat
         (st_log fresh_state
          ++ [EvSend pre_save (SModel Model_class)
                (Some (created_of (H := toy_host) Model_class ∅ fresh_state));
              EvBaseSave (w_attrs touched_world) [] ∅;
              EvSend post_save (SModel Model_class)
                (Some (created_of (H := toy_host) Model_class ∅ fresh_state))])).
Proof.
  apply (save_emits_and_returns (H := toy_host) Model_class module_registry [] ∅
           fresh_state touched_world (VInt 1) (w_attrs saved_world) 1%nat saved_world);
    reflexivity.
Defined.

(** The flag as the specification words it differs from the flag sent, on a record
    whose key is [0]. *)
Lemma save_created_counterexample :
  w_attrs (st_world zero_pk_state) !! cls_pk Model_class = Some (VInt 0)
  ∧ pk_is_set (VInt 0) = true
  ∧ created_as_stated ∅ (VInt 0) = false
  ∧ st_log (Model_save (H := toy_host) Model_class module_registry [] ∅
              zero_pk_state).2 !! 0%nat
    = Some (EvSend pre_save (SModel Model_class) (Some (VBool true))).
Proof. repeat split. Qed.

Lemma save_falsy_pk_is_created_witness :
  ∃ created rest,
    st_log (Model_save (H := toy_host) Model_class module_registry [] ∅
              zero_pk_state).2
      = st_log zero_pk_state ++ EvSend pre_save (SModel Model_class) (Some created) :: rest
    ∧ truthy created = true
    ∧ (force_insert_requested ∅ = false → created = VBool true).
Proof.
  apply (save_falsy_pk_is_created (H := toy_host) Model_class module_registry [] ∅
           zero_pk_state (VInt 0)); reflexivity.
Defined.

(** The same on an empty-string key. *)
Example save_empty_string_pk :
  st_log (Model_save (H := toy_host) Model_class module_registry [] ∅
            (mk_state (H := toy_host)
               (mk_world {[ "id" := VStr "" ]} sample_clock 0) 0%nat [])).2 !! 0%nat
  = Some (EvSend pre_save (SModel Model_class) (Some (VBool true))).
Proof. reflexivity. Qed.

(** The toy base class writes the key and nothing else. *)
Lemma toy_save_keeps f : f ≠ "id" → base_keeps (H := toy_host) f toy_save.
Proof.
  intros Hf args kw self db. unfold toy_save.
  destruct (self !! "id") as [[]|]; simpl; by rewrite ?lookup_insert_ne.
Qed.

Lemma toy_delete_keeps f : base_keeps (H := toy_host) f toy_delete.
Proof. by intros args kw self db. Qed.

Lemma save_touches_updated_at_witness :
  let st' := (Model_save (H := toy_host) Model_class module_registry [] ∅
                fresh_state).2 in
  let now := reading (st_world fresh_state) in
  (∃ rest,
     st_log st'
     = st_log fresh_state
       ++ EvSend pre_save (SModel Model_class)
            (Some (created_of (H := toy_host) Model_class ∅ fresh_state))
          :: EvBaseSave (<["updated_at" := VPendulum now]>
                           (w_attrs (st_world fresh_state))) [] ∅
          :: rest)
  ∧ w_attrs (st_world st') !! "updated_at" = Some (VPendulum now)
  ∧ is_aware now = true
  ∧ (∀ v old i,
       w_attrs (st_world fresh_state) !! "updated_at" = Some v →
       as_datetime v = Some old → instant old = Some i →
       i ≤ wall now → dt_le old now = true).
Proof.
  apply (save_touches_updated_at (H := toy_host) Model_class [] ∅ fresh_state).
  by apply toy_save_keeps.
Defined.

(** A record stamped ahead of the clock: after the save [updated_at] holds
    the clock's reading, which is earlier than the stamp it replaced. *)
Lemma save_updated_at_counterexample :
  w_attrs (st_world future_state) !! "updated_at" = Some (VPendulum future_stamp)
  ∧ is_aware future_stamp = true
  ∧ ∃ new,
      w_attrs (st_world (Model_save (H := toy_host) Model_class module_registry
                           [] ∅ future_state).2) !! "updated_at"
      = Some (VPendulum new)
      ∧ is_aware new = true
      ∧ dt_le future_stamp new = false.
Proof.
  split; [reflexivity|]. split; [reflexivity|].
  exists (reading (st_world future_state)). by repeat split.
Qed.

Lemma pre_receiver_exception_aborts_witness :
  Model_save (H := toy_host) Model_class failing_registry [] ∅ fresh_state
  = (Raise (HostError "RuntimeError" "observer failed"),
     mk_state (H := toy_host) touched_world (st_db fresh_state)
       (st_log fresh_state
        ++ [EvSend pre_save (SModel Model_class)
              (Some (created_of (H := toy_host) Model_class ∅ fresh_state))]))
  ∧ Model_delete_instance (H := toy_host) Model_class failing_registry [] ∅ fresh_state
    = (Raise (HostError "RuntimeError" "observer failed"),
       mk_state (H := toy_host) fresh_world (st_db fresh_state)
         (st_log fresh_state ++ [EvSend pre_delete (SModel Model_class) None]))
  ∧ Model_init (H := toy_host) Model_class failing_registry [] ∅ fresh_state
    = (Raise (HostError "RuntimeError" "observer failed"),
       mk_state (H := toy_host) (pw_Model_init Model_class [] ∅ fresh_world).2
         (st_db fresh_state)
         (st_log fresh_state
          ++ [EvBaseInit [] ∅; EvSend pre_init (SModel Model_class) None])).
Proof.
  split; [|split].
  - apply (proj1 (pre_receiver_exception_aborts (H := toy_host) Model_class
                    failing_registry [] ∅ fresh_state
                    (HostError "RuntimeError" "observer failed") touched_world)).
    exists [_touch_model], failing_receiver, [], touched_world.
    repeat split.
  - apply (proj1 (proj2 (pre_receiver_exception_aborts (H := toy_host) Model_class
                    failing_registry [] ∅ fresh_state
                    (HostError "RuntimeError" "observer failed") fresh_world))).
    exists [], failing_receiver, [], fresh_world.
    repeat split.
  - apply (proj2 (proj2 (pre_receiver_exception_aborts (H := toy_host) Model_class
                    failing_registry [] ∅ fresh_state
                    (HostError "RuntimeError" "observer failed")
                    (pw_Model_init Model_class [] ∅ fresh_world).2))).
    exists [], failing_receiver, [], (pw_Model_init Model_class [] ∅ fresh_world).2.
    repeat split.
Defined.

Lemma created_at_kept_updated_at_refreshed_witness :
  registry_keeps "created_at" module_registry
  ∧ w_attrs (st_world (Model_init (H := toy_host) Model_class module_registry
                         [] ∅ fresh_state).2) !! "created_at"
    = Some (VPendulum (reading (st_world fresh_state)))
  ∧ w_attrs (st_world (Model_save (H := toy_host) Model_class module_registry
                         [] ∅ fresh_state).2) !! "created_at"
    = w_attrs (st_world fresh_state) !! "created_at"
  ∧ w_attrs (st_world (Model_delete_instance (H := toy_host) Model_class
                         module_registry [] ∅ fresh_state).2) !! "created_at"
    = w_attrs (st_world fresh_state) !! "created_at"
  ∧ w_attrs (st_world (Model_save (H := toy_host) Model_class module_registry
                         [] ∅ fresh_state).2) !! "updated_at"
    = Some (VPendulum (reading (st_world fresh_state))).
Proof.
  apply (created_at_kept_updated_at_refreshed (H := toy_host) Model_class
           module_registry [] ∅ ∅ fresh_state).
  - by apply module_registry_keeps.
  - by apply toy_save_keeps.
  - apply toy_delete_keeps.
  - by apply toy_save_keeps.
  - reflexivity.
Defined.

(** ** Export and update helpers *)

Lemma update_fields_strict known self kvs k :
  k ∈ kvs.*1 → k ∉ known →
  ∃ msg self', update_fields known self kvs false = (Raise (AttributeError msg), self').
Proof.
  revert self. induction kvs as [|[k' v] kvs IH]; intros self Hin Hk; simpl in *.
  - by apply elem_of_nil in Hin.
  - case_bool_decide as Hk'; [|by eauto].
    apply elem_of_cons in Hin as [->|Hin]; [done|by apply IH].
Qed.

Lemma update_fields_permissive known self kvs :
  ∃ r self',
    update_fields known self kvs true = (Return r, self')
    ∧ update_fields known self kvs true
      = update_fields known self (filter (λ kv, kv.1 ∈ known) kvs) true.
Proof.
  revert self. induction kvs as [|[k v] kvs IH]; intros self; simpl.
  - eauto.
  - case_bool_decide as Hk.
    + rewrite filter_cons_True by done. simpl.
      rewrite bool_decide_eq_true_2 by done. apply IH.
    + rewrite filter_cons_False by done. apply IH.
Qed.

Lemma update_fields_keeps known self kvs ign k :
  k ∉ known → (update_fields known self kvs ign).2 !! k = self !! k.
Proof.
  intros Hk. revert self. induction kvs as [|[k' v] kvs IH]; intros self; simpl.
  - done.
  - case_bool_decide as Hk'.
    + rewrite IH. apply lookup_insert_ne. by intros ->.
    + destruct ign; [apply IH|done].
Qed.

Section Helper_facts.
Context `{Host}.

(** C5, at the base class. [to_dict] looks up [serialize_config] on
    [_meta], where [Meta] declares [model_to_dict_config]: the call raises
    [AttributeError] before the host conversion is reached. Where a class
    does provide the names looked up, the keyword arguments of the caller
    still never reach the conversion. *)
Theorem to_dict_raises_on_Model self default_ kw :
  Model_to_dict Model_class self default_ kw = Raise (AttributeError "serialize_config")
  ∧ (∀ c kw', Model_to_dict c self default_ kw = Model_to_dict c self default_ kw').
Proof.
  split; [reflexivity|].
  intros c kw'. unfold Model_to_dict.
  destruct (meta_getattr c "serialize_config"); simpl; [|done].
  by destruct (dict_copy _).
Qed.

(** C6. Against the host helper as the spec describes it: called without
    [ignore_unknown], [update_from_dict] fails with the unknown-field error
    ([AttributeError]) on a mapping with a name outside the schema; called
    with a truthy [ignore_unknown] it answers, leaves the attribute of that
    name as it was, and does what it does on the mapping without such
    names. *)
Theorem update_from_dict_strict_by_default (known : gset string)
    (self : gmap string pyval) (kvs : list (string * pyval)) (k : string) :
  k ∈ kvs.*1 → k ∉ known →
  (∃ msg self',
     Model_update_from_dict (H := with_spec_update known H) self (VDict kvs) None
     = (Raise (AttributeError msg), self'))
  ∧ (∀ ign, truthy ign = true →
       ∃ r self',
         Model_update_from_dict (H := with_spec_update known H) self (VDict kvs)
           (Some ign) = (Return r, self')
         ∧ self' !! k = self !! k
         ∧ Model_update_from_dict (H := with_spec_update known H) self
             (VDict (filter (λ kv, kv.1 ∈ known) kvs)) (Some ign)
           = (Return r, self')).
Proof.
  intros Hin Hk. split.
  - unfold Model_update_from_dict. simpl. by eapply update_fields_strict.
  - intros ign Hign. unfold Model_update_from_dict. simpl. rewrite Hign.
    destruct (update_fields_permissive known self kvs) as (r & self' & Hr & Hf).
    exists r, self'. split; [done|]. split; [|by rewrite <- Hf].
    pose proof (update_fields_keeps known self kvs true k Hk) as Hkeep.
    by rewrite Hr in Hkeep.
Qed.
End Helper_facts.

Lemma update_from_dict_strict_by_default_witness :
  (∃ msg self',
     Model_update_from_dict (H := with_spec_update (list_to_set toy_known) toy_host)
       ∅ (VDict sample_data) None
     = (Raise (AttributeError msg), self'))
  ∧ (∀ ign, truthy ign = true →
       ∃ r self',
         Model_update_from_dict (H := with_spec_update (list_to_set toy_known) toy_host)
           ∅ (VDict sample_data) (Some ign) = (Return r, self')
         ∧ self' !! "colour" = (∅ : gmap string pyval) !! "colour"
         ∧ Model_update_from_dict
             (H := with_spec_update (list_to_set toy_known) toy_host) ∅
             (VDict (filter (λ kv, kv.1 ∈ (list_to_set toy_known : gset string))
                            sample_data)) (Some ign)
           = (Return r, self')).
Proof.
  apply (update_from_dict_strict_by_default (H := toy_host)
           (list_to_set toy_known) ∅ sample_data "colour").
  - apply (bool_decide_unpack ("colour" ∈ sample_data.*1)). by vm_compute.
  - apply (bool_decide_unpack ("colour" ∉ (list_to_set toy_known : gset string))).
    by vm_compute.
Defined.

(** The two runs on the sample mapping. *)
Example update_from_dict_sample_strict :
  Model_update_from_dict (H := with_spec_update (list_to_set toy_known) toy_host)
    ∅ (VDict sample_data) None
  = (Raise (AttributeError "colour"), {[ "name" := VStr "a" ]}).
Proof. by vm_compute. Qed.

Example update_from_dict_sample_permissive :
  Model_update_from_dict (H := with_spec_update (list_to_set toy_known) toy_host)
    ∅ (VDict sample_data) (Some (VBool true))
  = (Return VNone, {[ "name" := VStr "a" ]}).
Proof. by vm_compute. Qed.

(** ** SmartDatabase *)

Section SmartDatabase_facts.
Context `{Pooled}.

Lemma execute_in_transaction args kw (s : db_state) :
  in_transaction s.1 = true → execute args kw s = super_execute args kw s.
Proof. intros Htx. unfold execute. unfold_M. simpl. by rewrite Htx. Qed.

(** X15. Outside a transaction, when the connection scope cannot be
    entered, [execute] raises the exception of [__enter__]: the statement is
    never run and [__exit__] is never called. *)
Lemma execute_enter_fails args kw (s : db_state) e c1 :
  in_transaction s.1 = false → ctx_enter s.1 = (Raise e, c1) →
  execute args kw s = (Raise e, (c1, s.2 ++ [DbEnter])).
Proof.
  intros Htx Henter. unfold execute. unfold_M. simpl. rewrite Htx.
  unfold with_, connection_context_enter, traced. by rewrite Henter.
Qed.

(** C7. Inside a transaction [execute] is the statement alone: no scope is
    entered. Outside one, once the scope is entered the statement runs in
    it once and the scope is left, whether the statement answered or
    raised; the answer or the exception of the statement is that of
    [execute], unless leaving the scope raises or swallows it. *)
Theorem smart_execute_scoped args kw (s : db_state) :
  (in_transaction s.1 = true →
   ∀ r c1, pool_execute args kw s.1 = (r, c1) →
   execute args kw s = (r, (c1, s.2 ++ [DbExecute args kw])))
  ∧ (in_transaction s.1 = false →
     ∀ c1 r c2 rx c3,
       ctx_enter s.1 = (Return tt, c1) →
       pool_execute args kw c1 = (r, c2) →
       ctx_exit (raised r) c2 = (rx, c3) →
       execute args kw s
       = (match r, rx with
          | _, Raise e' => Raise e'
          | Return v, Return _ => Return v
          | Raise e, Return x => if truthy x then Return VNone else Raise e
          end,
          (c3, s.2 ++ [DbEnter; DbExecute args kw; DbExit (raised r)]))).
Proof.
  split.
  - intros Htx r c1 Hexec. rewrite execute_in_transaction by done.
    unfold super_execute, traced. by rewrite Hexec.
  - intros Htx c1 r c2 rx c3 Henter Hexec Hexit.
    unfold execute. unfold_M. simpl. rewrite Htx.
    unfold with_, connection_context_enter, connection_context_exit,
      super_execute, traced. simpl.
    rewrite Henter. simpl. rewrite Hexec. simpl.
    destruct r as [v|e]; simpl in *; rewrite Hexit; simpl.
    + destruct rx; simpl; by rewrite <- !app_assoc.
    + destruct rx as [x|e']; simpl; [|by rewrite <- !app_assoc].
      destruct (truthy x); simpl; by rewrite <- !app_assoc.
Qed.
End SmartDatabase_facts.

Lemma smart_execute_scoped_witness :
  execute (H := toy_pool) [VStr "SELECT 1"] ∅ busy_conn
  = (Return (VInt 1), ((true, 1%nat), busy_conn.2 ++ [DbExecute [VStr "SELECT 1"] ∅]))
  ∧ execute (H := toy_pool) [VStr "SELECT 1"] ∅ idle_conn
    = (Return (VInt 1),
       ((false, 0%nat),
        idle_conn.2 ++ [DbEnter; DbExecute [VStr "SELECT 1"] ∅; DbExit None]))
  ∧ execute (H := toy_pool) [] ∅ idle_conn
    = (Raise (HostError "OperationalError" "no statement"),
       ((false, 0%nat),
        idle_conn.2
        ++ [DbEnter; DbExecute [] ∅;
            DbExit (Some (HostError "OperationalError" "no statement"))])).
Proof.
  split; [|split].
  - apply (proj1 (smart_execute_scoped (H := toy_pool) [VStr "SELECT 1"] ∅ busy_conn));
      reflexivity.
  - apply (proj2 (smart_execute_scoped (H := toy_pool) [VStr "SELECT 1"] ∅ idle_conn)
             eq_refl (false, 1%nat) (Return (VInt 1)) (false, 1%nat)
             (Return VNone) (false, 0%nat)); reflexivity.
  - apply (proj2 (smart_execute_scoped (H := toy_pool) [] ∅ idle_conn)
             eq_refl (false, 1%nat)
             (Raise (HostError "OperationalError" "no statement")) (false, 1%nat)
             (Return VNone) (false, 0%nat)); reflexivity.
Defined.

(** * Further properties *)

(** ** DatetimeTZField: what is written, and how it reads back *)

Section DatetimeTZField_more.
Context `{Host}.

(** On an aware value whose offset [datetime] accepts, [db_value] is the
    conversion to UTC, or the overflow. *)
Lemma db_value_aware v t off :
  as_datetime v = Some t → utcoffset t = Some off → offset_ok off = true →
  db_value v = match to_utc t with
               | Some u => Return (VDatetime u)
               | None => Raise (OverflowError "date value out of range")
               end.
Proof.
  intros Hv Hoff Hok. rewrite (db_value_datetime _ _ Hv), Hoff, Hok.
  unfold to_utc, instant. rewrite Hoff. simpl.
  by destruct (representable _).
Qed.

Lemma to_utc_shape t u :
  to_utc t = Some u →
  u = {| wall := wall u; dt_tzinfo := Some timezone_utc |}
  ∧ representable (wall u) = true
  ∧ instant t = Some (wall u).
Proof.
  unfold to_utc. destruct (instant t) as [i|]; simpl; [|done].
  destruct (representable i) eqn:Hr; [|done]. intros [= <-]. by simpl.
Qed.

Lemma db_value_returns v w :
  db_value v = Return w →
  (v = VNone ∧ w = VNone)
  ∨ (∃ t u off, as_datetime v = Some t ∧ utcoffset t = Some off
                ∧ offset_ok off = true ∧ to_utc t = Some u ∧ w = VDatetime u).
Proof.
  intros Hr. destruct (as_datetime v) as [t|] eqn:Hv.
  - right. pose proof Hr as Hr'. rewrite (db_value_datetime _ _ Hv) in Hr'.
    destruct (utcoffset t) as [off|] eqn:Hoff; [|done].
    destruct (offset_ok off) eqn:Hok; [|done].
    rewrite (db_value_aware _ _ _ Hv Hoff Hok) in Hr.
    destruct (to_utc t) as [u|] eqn:Hu; [|done].
    exists t, u, off. by simplify_eq.
  - left. destruct v; try discriminate Hv;
      unfold db_value in Hr; simpl in Hr; by simplify_eq.
Qed.

(** X1. Whatever [db_value] answers is in normal form: [None] for [None],
    and otherwise a plain datetime, never a Pendulum, that is the UTC
    conversion of an aware input whose offset [datetime] accepts; nothing
    else is ever answered. *)
Theorem db_value_normal_form (v w : pyval) :
  db_value v = Return w
  ↔ (v = VNone ∧ w = VNone)
    ∨ (∃ t u off, as_datetime v = Some t ∧ utcoffset t = Some off
                  ∧ offset_ok off = true ∧ to_utc t = Some u ∧ w = VDatetime u).
Proof.
  split; [apply db_value_returns|].
  intros [[-> ->]|(t & u & off & Hv & Hoff & Hok & Hu & ->)]; [done|].
  rewrite (db_value_aware _ _ _ Hv Hoff Hok). by rewrite Hu.
Qed.

(** X2. Writing is idempotent: a value [db_value] answered is answered
    unchanged when written again. *)
Theorem db_value_idempotent (v w : pyval) :
  db_value v = Return w → db_value w = Return w.
Proof.
  intros [[-> ->]|(t & u & off & Hv & _ & _ & Hu & ->)]%db_value_returns; [done|].
  apply to_utc_shape in Hu as (Hu & Hr & _).
  destruct u as [i tz]. simpl in *. simplify_eq.
  rewrite (db_value_aware (VDatetime (mk_datetime i (Some timezone_utc)))
             (mk_datetime i (Some timezone_utc)) 0) by done.
  unfold to_utc, instant. simpl.
  replace (i - 0) with i by lia. by rewrite Hr.
Qed.

(** X3. Two aware values that denote the same instant, at whatever offsets
    [datetime] accepts and whether plain or Pendulum, are written alike. *)
Theorem db_value_same_instant (v1 v2 : pyval) (t1 t2 : datetime) (o1 o2 : Z) :
  as_datetime v1 = Some t1 → as_datetime v2 = Some t2 →
  utcoffset t1 = Some o1 → offset_ok o1 = true →
  utcoffset t2 = Some o2 → offset_ok o2 = true →
  instant t1 = instant t2 →
  db_value v1 = db_value v2.
Proof.
  intros Hv1 Hv2 Ho1 Hok1 Ho2 Hok2 Hi.
  rewrite (db_value_aware _ _ _ Hv1 Ho1 Hok1), (db_value_aware _ _ _ Hv2 Ho2 Hok2).
  unfold to_utc. by rewrite Hi.
Qed.


(** X5. Reading is idempotent on everything but text: what [python_value]
    answers for a value that is not a string reads back as itself. *)
Theorem python_value_idempotent (v w : pyval) :
  (∀ s, v ≠ VStr s) → python_value v = Return w → python_value w = Return w.
Proof.
  intros Hs Hr.
  destruct (as_datetime v) as [d|] eqn:Hv.
  - assert (Hp : pendulum_instance d = Return w).
    { destruct v; simpl in Hv; try discriminate; by simplify_eq. }
    unfold pendulum_instance in Hp.
    destruct (dt_tzinfo d) as [[off|]|]; simplify_eq; try done.
    simpl. unfold pendulum_instance. simpl.
    by rewrite nearest_minute_idempotent.
  - destruct v; simpl in *; try discriminate; simplify_eq; try done.
    by destruct (Hs s).
Qed.

(** X6. A backend that keeps the reading but drops the offset of what was
    written still reads back the instant of the aware input, at offset
    zero. *)
Theorem field_round_trip_naive_backend (v : pyval) (t u : datetime) :
  as_datetime v = Some t → db_value v = Return (VDatetime u) →
  ∃ p, python_value (VDatetime {| wall := wall u; dt_tzinfo := None |})
       = Return (VPendulum p)
       ∧ utcoffset p = Some 0
       ∧ instant p = instant t.
Proof.
  intros Hv [[-> ?]|(t' & u' & off & Hv' & _ & _ & Hu & Hw)]%db_value_returns;
    [done|].
  simplify_eq. apply to_utc_shape in Hu as (_ & _ & Hi).
  eexists. split; [reflexivity|]. split; [done|].
  rewrite Hi. unfold instant. simpl. f_equal. lia.
Qed.
End DatetimeTZField_more.

Lemma db_value_idempotent_witness :
  db_value (H := toy_host) (VDatetime sample_utc) = Return (VDatetime sample_utc).
Proof.
  apply (db_value_idempotent (H := toy_host) (VDatetime sample_local)
           (VDatetime sample_utc)).
  reflexivity.
Defined.

Lemma db_value_same_instant_witness :
  db_value (H := toy_host) (VDatetime sample_local)
  = db_value (H := toy_host) (VPendulum sample_utc).
Proof.
  apply (db_value_same_instant (H := toy_host) (VDatetime sample_local)
           (VPendulum sample_utc) sample_local sample_utc 3600000000 0);
    reflexivity.
Defined.


Lemma python_value_idempotent_witness :
  python_value (H := toy_host) (VPendulum sample_utc) = Return (VPendulum sample_utc).
Proof.
  apply (python_value_idempotent (H := toy_host) (VDatetime sample_naive)
           (VPendulum sample_utc)); [done|reflexivity].
Defined.

Lemma field_round_trip_naive_backend_witness :
  ∃ p, python_value (H := toy_host)
         (VDatetime {| wall := wall sample_utc; dt_tzinfo := None |})
       = Return (VPendulum p)
       ∧ utcoffset p = Some 0
       ∧ instant p = instant sample_local.
Proof.
  apply (field_round_trip_naive_backend (H := toy_host) (VDatetime sample_local)
           sample_local sample_utc); reflexivity.
Defined.

(** ** The lifecycle methods off the happy path *)

Section Model_more.
Context `{Host}.

(** X7. When the base class raises, [save] and [delete_instance] raise the
    same exception and never send the [post_] signal; what the [pre_]
    receivers did to the record stays. *)
Theorem base_exception_skips_post_signal c reg args kw st w1 e self2 db2 :
  (run_receivers (reg pre_save) (SModel c) (Some (created_of c kw st)) (st_world st)
     = (Return tt, w1) →
   pw_save args kw (w_attrs w1) (st_db st) = (Raise e, self2, db2) →
   Model_save c reg args kw st
   = (Raise e,
      mk_state (mk_world self2 (w_clock w1) (w_ticks w1)) db2
        (st_log st ++ [EvSend pre_save (SModel c) (Some (created_of c kw st));
                       EvBaseSave (w_attrs w1) args kw])))
  ∧ (run_receivers (reg pre_delete) (SModel c) None (st_world st) = (Return tt, w1) →
     pw_delete_instance args kw (w_attrs w1) (st_db st) = (Raise e, self2, db2) →
     Model_delete_instance c reg args kw st
     = (Raise e,
        mk_state (mk_world self2 (w_clock w1) (w_ticks w1)) db2
          (st_log st ++ [EvSend pre_delete (SModel c) None;
                         EvBaseDelete (w_attrs w1) args kw]))).
Proof.
  split; intros Hpre Hbase.
  - rewrite Model_save_run. cbv zeta. rewrite send_run, Hpre.
    rewrite super_save_run. simpl. rewrite Hbase. by rewrite <- app_assoc.
  - rewrite Model_delete_instance_run. rewrite send_run, Hpre.
    rewrite super_delete_instance_run. simpl. rewrite Hbase.
    by rewrite <- app_assoc.
Qed.

(** X8. When a [post_save] receiver raises, [save] raises that exception
    although the base class has written: the database is the one the write
    left, and the answer of the base class is lost. *)
Theorem post_save_exception_after_write c reg args kw st w1 ret self2 db2 e w3 :
  let created := created_of c kw st in
  run_receivers (reg pre_save) (SModel c) (Some created) (st_world st)
    = (Return tt, w1) →
  pw_save args kw (w_attrs w1) (st_db st) = (Return ret, self2, db2) →
  receiver_raises (reg post_save) (SModel c) (Some created)
                  (mk_world self2 (w_clock w1) (w_ticks w1)) e w3 →
  Model_save c reg args kw st
  = (Raise e,
     mk_state w3 db2
       (st_log st ++ [EvSend pre_save (SModel c) (Some created);
                      EvBaseSave (w_attrs w1) args kw;
                      EvSend post_save (SModel c) (Some created)])).
Proof.
  intros created Hpre Hsave Hpost%run_receivers_raises.
  rewrite Model_save_run. fold created. cbv zeta.
  rewrite send_run, Hpre. rewrite super_save_run. simpl. rewrite Hsave.
  rewrite send_run. simpl. rewrite Hpost. by rewrite <- !app_assoc.
Qed.

(** X9. When the receivers and the base class answer, [delete_instance]
    sends [pre_delete], calls the base [delete_instance] with the arguments
    it was given, sends [post_delete], in that order, and answers what the
    base class answered. *)
Theorem delete_instance_emits_and_returns c reg args kw st w1 ret self2 db2 w3 :
  run_receivers (reg pre_delete) (SModel c) None (st_world st) = (Return tt, w1) →
  pw_delete_instance args kw (w_attrs w1) (st_db st) = (Return ret, self2, db2) →
  run_receivers (reg post_delete) (SModel c) None
                (mk_world self2 (w_clock w1) (w_ticks w1)) = (Return tt, w3) →
  Model_delete_instance c reg args kw st
  = (Return ret,
     mk_state w3 db2
       (st_log st ++ [EvSend pre_delete (SModel c) None;
                      EvBaseDelete (w_attrs w1) args kw;
                      EvSend post_delete (SModel c) None])).
Proof.
  intros Hpre Hdel Hpost.
  rewrite Model_delete_instance_run. rewrite send_run, Hpre.
  rewrite super_delete_instance_run. simpl. rewrite Hdel.
  rewrite send_run. simpl. rewrite Hpost. by rewrite <- !app_assoc.
Qed.

(** X10. Under the registry of the module [delete_instance] hands the
    record to the base class as it found it: no receiver is connected to the
    delete signals, so the clock is not read and [updated_at] is not
    touched. *)
Theorem delete_instance_module_registry c args kw st :
  ∃ r self2 db2,
    pw_delete_instance args kw (w_attrs (st_world st)) (st_db st) = (r, self2, db2)
    ∧ (Model_delete_instance c module_registry args kw st).1 = r
    ∧ st_world (Model_delete_instance c module_registry args kw st).2
      = mk_world self2 (w_clock (st_world st)) (w_ticks (st_world st))
    ∧ ∃ rest,
        st_log (Model_delete_instance c module_registry args kw st).2
        = st_log st ++ EvSend pre_delete (SModel c) None
                       :: EvBaseDelete (w_attrs (st_world st)) args kw :: rest.
Proof.
  rewrite Model_delete_instance_run.
  unfold send, super_delete_instance, log, on_world. unfold_M. simpl.
  destruct (pw_delete_instance _ _ _ _) as [[[ret|e] self2] db2] eqn:Hd; simpl.
  - exists (Return ret), self2, db2. repeat split.
    eexists. by rewrite <- !app_assoc.
  - exists (Raise e), self2, db2. repeat split.
    eexists. by rewrite <- !app_assoc.
Qed.

(** X12. A forced insert asked for by position is not seen: with a truthy
    key and no [force_insert] keyword, [save] sends [pre_save] with
    [created=False] whatever the positional arguments are. *)
Theorem save_ignores_positional_force_insert c reg args kw st pk :
  w_attrs (st_world st) !! cls_pk c = Some pk →
  truthy pk = true →
  kw !! "force_insert" = None →
  ∃ rest,
    st_log (Model_save c reg args kw st).2
    = st_log st ++ EvSend pre_save (SModel c) (Some (VBool false)) :: rest.
Proof.
  intros Hpk Htruthy Hkw.
  destruct (Model_save_log_head c reg args kw st) as [rest Hlog].
  exists rest. rewrite Hlog. do 4 f_equal.
  unfold created_of, created_flag, py_or. rewrite Hkw, Hpk. simpl.
  by rewrite Htruthy.
Qed.
End Model_more.


Lemma base_exception_skips_post_signal_witness :
  Model_save (H := refusing_host) Model_class module_registry [] ∅ stored_state_refusing
  = (Raise (HostError "IntegrityError" "constraint failed"),
     mk_state (H := refusing_host)
       (mk_world (w_attrs (touch (st_world stored_state_refusing)))
                 (w_clock (touch (st_world stored_state_refusing)))
                 (w_ticks (touch (st_world stored_state_refusing))))
       3%nat
       (st_log stored_state_refusing
        ++ [EvSend pre_save (SModel Model_class)
              (Some (created_of (H := refusing_host) Model_class ∅
                       stored_state_refusing));
            EvBaseSave (w_attrs (touch (st_world stored_state_refusing))) [] ∅]))
  ∧ Model_delete_instance (H := refusing_host) Model_class module_registry [] ∅
      stored_state_refusing
    = (Raise (HostError "IntegrityError" "constraint failed"),
       mk_state (H := refusing_host)
         (mk_world (w_attrs (st_world stored_state_refusing))
                   (w_clock (st_world stored_state_refusing))
                   (w_ticks (st_world stored_state_refusing)))
         3%nat
         (st_log stored_state_refusing
          ++ [EvSend pre_delete (SModel Model_class) None;
              EvBaseDelete (w_attrs (st_world stored_state_refusing)) [] ∅])).
Proof.
  split.
  - apply (proj1 (base_exception_skips_post_signal (H := refusing_host) Model_class
                    module_registry [] ∅ stored_state_refusing
                    (touch (st_world stored_state_refusing))
                    (HostError "IntegrityError" "constraint failed")
                    (w_attrs (touch (st_world stored_state_refusing))) 3%nat));
      reflexivity.
  - apply (proj2 (base_exception_skips_post_signal (H := refusing_host) Model_class
                    module_registry [] ∅ stored_state_refusing
                    (st_world stored_state_refusing)
                    (HostError "IntegrityError" "constraint failed")
                    (w_attrs (st_world stored_state_refusing)) 3%nat));
      reflexivity.
Defined.

Lemma post_save_exception_after_write_witness :
  Model_save (H := toy_host) Model_class late_failing_registry [] ∅ stored_state
  = (Raise (HostError "RuntimeError" "observer failed"),
     mk_state (H := toy_host) (touch (st_world stored_state)) 3%nat
       (st_log stored_state
        ++ [EvSend pre_save (SModel Model_class)
              (Some (created_of (H := toy_host) Model_class ∅ stored_state));
            EvBaseSave (w_attrs (touch (st_world stored_state))) [] ∅;
            EvSend post_save (SModel Model_class)
              (Some (created_of (H := toy_host) Model_class ∅ stored_state))])).
Proof.
  apply (post_save_exception_after_write (H := toy_host) Model_class
           late_failing_registry [] ∅ stored_state (touch (st_world stored_state))
           (VInt 1) (w_attrs (touch (st_world stored_state))) 3%nat
           (HostError "RuntimeError" "observer failed")
           (touch (st_world stored_state))); [reflexivity|reflexivity|].
  exists [], failing_receiver, [], (touch (st_world stored_state)).
  repeat split.
Defined.

Lemma delete_instance_emits_and_returns_witness :
  Model_delete_instance (H := toy_host) Model_class module_registry [] ∅ stored_state
  = (Return (VInt 1),
     mk_state (H := toy_host) (st_world stored_state) 2%nat
       (st_log stored_state
        ++ [EvSend pre_delete (SModel Model_class) None;
            EvBaseDelete (w_attrs (st_world stored_state)) [] ∅;
            EvSend post_delete (SModel Model_class) None])).
Proof.
  apply (delete_instance_emits_and_returns (H := toy_host) Model_class
           module_registry [] ∅ stored_state (st_world stored_state) (VInt 1)
           (w_attrs (st_world stored_state)) 2%nat (st_world stored_state));
    reflexivity.
Defined.

Lemma save_ignores_positional_force_insert_witness :
  ∃ rest,
    st_log (Model_save (H := toy_host) Model_class module_registry [VBool true] ∅
              stored_state).2
    = st_log stored_state
      ++ EvSend pre_save (SModel Model_class) (Some (VBool false)) :: rest.
Proof.
  apply (save_ignores_positional_force_insert (H := toy_host) Model_class
           module_registry [VBool true] ∅ stored_state (VInt 7)); reflexivity.
Defined.


(** ** Export: what [to_dict] and [to_json] make of [Meta] *)

Section Export_more.
Context `{Host} `{Json}.

(** X13. The mapping [Meta] declares, [model_to_dict_config], plays no part
    in [to_dict]: two classes whose options agree on every other name export
    alike. *)
Theorem to_dict_ignores_declared_config c c' self default_ kw :
  (∀ k, k ≠ "model_to_dict_config" → cls_meta c !! k = cls_meta c' !! k) →
  Model_to_dict c self default_ kw = Model_to_dict c' self default_ kw.
Proof.
  intros Hagree. unfold Model_to_dict, meta_getattr.
  by rewrite !Hagree.
Qed.

(** X14. On a class whose options lack [serialize_config], as those of
    [Model] do, [to_json] raises [AttributeError] whatever the record and the
    keyword arguments; [json.dumps] is not reached. *)
Theorem to_json_raises_without_serialize_config c self kw :
  cls_meta c !! "serialize_config" = None →
  Model_to_json c self kw = Raise (AttributeError "serialize_config").
Proof.
  intros Hmeta. unfold Model_to_json, Model_to_dict, meta_getattr.
  by rewrite Hmeta.
Qed.
End Export_more.

Lemma to_dict_ignores_declared_config_witness :
  Model_to_dict (H := toy_host) configured_class {[ "id" := VInt 7 ]} None ∅
  = Model_to_dict (H := toy_host) reconfigured_class {[ "id" := VInt 7 ]} None ∅.
Proof.
  apply (to_dict_ignores_declared_config (H := toy_host) configured_class
           reconfigured_class {[ "id" := VInt 7 ]} None ∅).
  intros k Hk. simpl. by rewrite (lookup_insert_ne _ "model_to_dict_config").
Defined.

(** On the configured class the export does answer. *)
Example to_dict_configured :
  Model_to_dict (H := toy_host) configured_class {[ "id" := VInt 7 ]} None ∅
  = Return (VDict [("id", VInt 7)]).
Proof. reflexivity. Qed.

Lemma to_json_raises_without_serialize_config_witness :
  Model_to_json (H := toy_host) (H0 := toy_json) Model_class {[ "id" := VInt 7 ]} ∅
  = Raise (AttributeError "serialize_config").
Proof.
  apply (to_json_raises_without_serialize_config (H := toy_host) (H0 := toy_json)
           Model_class {[ "id" := VInt 7 ]} ∅).
  reflexivity.
Defined.

(** ** Registering the smart classes *)

Lemma elem_of_concat {A} (x : A) (ls : list (list A)) :
  x ∈ concat ls ↔ ∃ l, x ∈ l ∧ l ∈ ls.
Proof.
  induction ls as [|l ls IH]; simpl.
  - split; [by intros ?%elem_of_nil|]. by intros (l & _ & ?%elem_of_nil).
  - rewrite elem_of_app, IH. split.
    + intros [Hx|(l' & Hx & Hl')]; [exists l|exists l']; split; try done;
        [by left|by right].
    + intros (l' & Hx & [->|Hl']%elem_of_cons); [by left|right; by exists l'].
Qed.

Lemma register_database_lookup_notin cls names sch url :
  url ∉ names → register_database cls names sch !! url = sch !! url.
Proof.
  unfold register_database. revert sch.
  induction names as [|a names IH]; intros sch Hnot; simpl; [done|].
  apply not_elem_of_cons in Hnot as [Hne Hnot].
  rewrite IH by done. by rewrite lookup_insert_ne.
Qed.

Lemma register_database_lookup_in cls names sch url :
  url ∈ names → register_database cls names sch !! url = Some cls.
Proof.
  unfold register_database. revert sch.
  induction names as [|a names IH]; intros sch Hin; simpl.
  - by apply elem_of_nil in Hin.
  - destruct (decide (url ∈ names)) as [Hl|Hl]; [by apply IH|].
    apply elem_of_cons in Hin as [->|Hin]; [|done].
    pose proof (register_database_lookup_notin cls names (<[a:=cls]> sch) a Hl) as Hn.
    unfold register_database in Hn. rewrite Hn. apply lookup_insert_eq.
Qed.

Lemma register_smarts_cons pool n urls rest ns :
  register_smarts pool ((n, urls) :: rest) ns =
    match pool !! pooled_name n with
    | None => (Raise (AttributeError (pooled_name n)), ns)
    | Some None => register_smarts pool rest ns
    | Some (Some pc) =>
        register_smarts pool rest
          (mk_ns (register_database (mk_smart n ["SmartDatabase"; pc]) urls
                    (ns_schemes ns))
                 (<[n := mk_smart n ["SmartDatabase"; pc]]> (ns_globals ns)))
    end.
Proof.
  simpl. unfold pool_getattr. unfold_M.
  by destruct (pool !! pooled_name n) as [[pc|]|].
Qed.

Lemma register_smarts_answers pool entries ns :
  (register_smarts pool entries ns).1 = Return tt
  ↔ ∀ n urls, (n, urls) ∈ entries → is_Some (pool !! pooled_name n).
Proof.
  revert ns. induction entries as [|[n urls] rest IH]; intros ns.
  - split; [|done]. intros _ n urls Hin. by apply elem_of_nil in Hin.
  - rewrite register_smarts_cons. split.
    + intros Hr n' urls' Hin.
      destruct (pool !! pooled_name n) as [[pc|]|] eqn:Hp; [| |done];
        (apply elem_of_cons in Hin as [[= -> ->]|Hin];
         [by rewrite Hp | by eapply IH]).
    + intros Hall.
      destruct (Hall n urls ltac:(left)) as [v Hv]. rewrite Hv.
      destruct v; apply IH; intros n' urls' Hin; apply (Hall n' urls'); by right.
Qed.

Lemma register_smarts_raises pool entries ns e :
  (register_smarts pool entries ns).1 = Raise e →
  ∃ n urls, (n, urls) ∈ entries ∧ pool !! pooled_name n = None
            ∧ e = AttributeError (pooled_name n).
Proof.
  revert ns. induction entries as [|[n urls] rest IH]; intros ns; [done|].
  rewrite register_smarts_cons.
  destruct (pool !! pooled_name n) as [[pc|]|] eqn:Hp.
  - intros (n' & urls' & Hin & ?)%IH. exists n', urls'. split; [by right|done].
  - intros (n' & urls' & Hin & ?)%IH. exists n', urls'. split; [by right|done].
  - simpl. intros [= <-]. exists n, urls. split; [by left|done].
Qed.

Lemma register_smarts_other pool entries ns url :
  (∀ n urls, (n, urls) ∈ entries → url ∉ urls) →
  ns_schemes (register_smarts pool entries ns).2 !! url = ns_schemes ns !! url.
Proof.
  revert ns. induction entries as [|[n urls] rest IH]; intros ns Hnot; [done|].
  rewrite register_smarts_cons.
  assert (Hrest : ∀ n' urls', (n', urls') ∈ rest → url ∉ urls').
  { intros n' urls' Hin. apply (Hnot n' urls'). by right. }
  destruct (pool !! pooled_name n) as [[pc|]|]; [|by apply IH|done].
  rewrite IH by done. simpl.
  apply register_database_lookup_notin. apply (Hnot n urls). by left.
Qed.

Lemma register_smarts_registered pool entries ns n urls url :
  NoDup (concat entries.*2) →
  (register_smarts pool entries ns).1 = Return tt →
  (n, urls) ∈ entries → url ∈ urls →
  ns_schemes (register_smarts pool entries ns).2 !! url
  = match pool !! pooled_name n with
    | Some (Some pc) => Some (mk_smart n ["SmartDatabase"; pc])
    | _ => ns_schemes ns !! url
    end.
Proof.
  revert ns. induction entries as [|[n0 urls0] rest IH];
    intros ns Hnd Hret Hin Hurl; [by apply elem_of_nil in Hin|].
  simpl in Hnd. apply NoDup_app in Hnd as (Hnd0 & Hdisj & Hndr).
  rewrite register_smarts_cons in Hret |- *.
  apply elem_of_cons in Hin as [[= -> ->]|Hin].
  - assert (Hrest : ∀ n' urls', (n', urls') ∈ rest → url ∉ urls').
    { intros n' urls' Hin' Hu. apply (Hdisj url Hurl).
      apply elem_of_concat. exists urls'. split; [done|].
      apply list_elem_of_fmap. by exists (n', urls'). }
    destruct (pool !! pooled_name n0) as [[pc|]|]; [| |done].
    + rewrite register_smarts_other by done. simpl.
      by apply register_database_lookup_in.
    + by apply register_smarts_other.
  - assert (Hnot0 : url ∉ urls0).
    { intros Hu. apply (Hdisj url Hu).
      apply elem_of_concat. exists urls. split; [done|].
      apply list_elem_of_fmap. by exists (n, urls). }
    destruct (pool !! pooled_name n0) as [[pc0|]|]; [| |done].
    + rewrite IH by done. simpl.
      destruct (pool !! pooled_name n) as [[pc|]|]; try done;
        by apply register_database_lookup_notin.
    + by apply IH.
Qed.

Lemma _smarts_NoDup : NoDup (concat _smarts.*2).
Proof. apply (bool_decide_unpack (NoDup (concat _smarts.*2))). by vm_compute. Qed.

Lemma register_smarts_globals pool entries ns n urls pc :
  NoDup entries.*1 →
  (register_smarts pool entries ns).1 = Return tt →
  (n, urls) ∈ entries → pool !! pooled_name n = Some (Some pc) →
  ns_globals (register_smarts pool entries ns).2 !! n
  = Some (mk_smart n ["SmartDatabase"; pc]).
Proof.
  assert (Hother : ∀ entries ns n,
            n ∉ entries.*1 →
            ns_globals (register_smarts pool entries ns).2 !! n = ns_globals ns !! n).
  { clear. intros entries. induction entries as [|[n0 urls0] rest IH];
      intros ns n Hnot; [done|].
    rewrite register_smarts_cons. simpl in Hnot.
    apply not_elem_of_cons in Hnot as [Hne Hnot].
    destruct (pool !! pooled_name n0) as [[pc0|]|]; [|by apply IH|done].
    rewrite IH by done. simpl. by rewrite lookup_insert_ne. }
  revert ns. induction entries as [|[n0 urls0] rest IH];
    intros ns Hnd Hret Hin Hpc; [by apply elem_of_nil in Hin|].
  simpl in Hnd. apply NoDup_cons in Hnd as [Hn0 Hnd].
  rewrite register_smarts_cons in Hret |- *.
  apply elem_of_cons in Hin as [[= -> ->]|Hin].
  - rewrite Hpc in Hret |- *. rewrite Hother by done. simpl.
    apply lookup_insert_eq.
  - destruct (pool !! pooled_name n0) as [[pc0|]|]; [| |done]; by apply IH.
Qed.

Lemma _smarts_names_NoDup : NoDup _smarts.*1.
Proof. apply (bool_decide_unpack (NoDup _smarts.*1)). by vm_compute. Qed.

(** X16. When the loop over [_smarts] answers, every URL scheme of an entry
    whose pooled class exists is bound to the class made for that entry,
    named as the entry and based on [SmartDatabase] and the pooled class,
    in that order, and the module binds the class under its name; the
    schemes of an entry whose pooled class is [None] are left as they
    were. *)
Theorem smart_schemes_registered pool ns n urls url :
  (register_smarts pool _smarts ns).1 = Return tt →
  (n, urls) ∈ _smarts → url ∈ urls →
  match pool !! pooled_name n with
  | Some (Some pc) =>
      ns_schemes (register_smarts pool _smarts ns).2 !! url
        = Some (mk_smart n ["SmartDatabase"; pc])
      ∧ ns_globals (register_smarts pool _smarts ns).2 !! n
        = Some (mk_smart n ["SmartDatabase"; pc])
  | _ => ns_schemes (register_smarts pool _smarts ns).2 !! url
         = ns_schemes ns !! url
  end.
Proof.
  intros Hret Hin Hurl.
  pose proof (register_smarts_registered pool _smarts ns n urls url
                _smarts_NoDup Hret Hin Hurl) as Hs.
  destruct (pool !! pooled_name n) as [[pc|]|] eqn:Hp; try done.
  split; [done|].
  by apply (register_smarts_globals pool _smarts ns n urls pc _smarts_names_NoDup).
Qed.

(** X17. The loop answers exactly when every name ['Pooled' + n[5:]] is an
    attribute of the pool module, be its value a class or [None]; otherwise
    it raises [AttributeError] for a name the pool lacks. *)
Theorem smart_registration_answers_iff pool ns :
  ((register_smarts pool _smarts ns).1 = Return tt
   ↔ ∀ n urls, (n, urls) ∈ _smarts → is_Some (pool !! pooled_name n))
  ∧ (∀ e, (register_smarts pool _smarts ns).1 = Raise e →
       ∃ n urls, (n, urls) ∈ _smarts ∧ pool !! pooled_name n = None
                 ∧ e = AttributeError (pooled_name n)).
Proof.
  split; [apply register_smarts_answers|].
  intros e. apply register_smarts_raises.
Qed.

(** X18. Whether the loop answers or raises, a scheme that is not in
    [_smarts] keeps the class it was registered with. *)
Theorem smart_registration_keeps_other_schemes pool ns url :
  url ∉ concat _smarts.*2 →
  ns_schemes (register_smarts pool _smarts ns).2 !! url = ns_schemes ns !! url.
Proof.
  intros Hnot. apply register_smarts_other.
  intros n urls Hin Hurl. apply Hnot. apply elem_of_concat.
  exists urls. split; [done|]. apply list_elem_of_fmap. by exists (n, urls).
Qed.

Lemma smart_schemes_registered_witness :
  match full_pool !! pooled_name "SmartPostgresqlDatabase" with
  | Some (Some pc) =>
      ns_schemes (register_smarts full_pool _smarts empty_ns).2 !! "postgresql+smart"
        = Some (mk_smart "SmartPostgresqlDatabase" ["SmartDatabase"; pc])
      ∧ ns_globals (register_smarts full_pool _smarts empty_ns).2
          !! "SmartPostgresqlDatabase"
        = Some (mk_smart "SmartPostgresqlDatabase" ["SmartDatabase"; pc])
  | _ => ns_schemes (register_smarts full_pool _smarts empty_ns).2 !! "postgresql+smart"
         = ns_schemes empty_ns !! "postgresql+smart"
  end.
Proof.
  apply (smart_schemes_registered full_pool empty_ns "SmartPostgresqlDatabase"
           ["postgres+smart"; "postgresql+smart"] "postgresql+smart").
  - reflexivity.
  - apply (bool_decide_unpack
             (("SmartPostgresqlDatabase", ["postgres+smart"; "postgresql+smart"])
              ∈ _smarts)). by vm_compute.
  - apply (bool_decide_unpack ("postgresql+smart" ∈ ["postgres+smart"; "postgresql+smart"])).
    by vm_compute.
Defined.

(** The names the loop forms, and what the sample pool yields. *)
Example pooled_name_MySQL : pooled_name "SmartMySQLDatabase" = "PooledMySQLDatabase".
Proof. reflexivity. Qed.

Example sample_pool_schemes :
  dom (ns_schemes (register_smarts full_pool _smarts empty_ns).2)
  = list_to_set ["mysql+smart"; "postgres+smart"; "postgresql+smart";
                 "sqlite+smart"; "sqliteext+smart"; "csqliteext+smart"].
Proof. by vm_compute. Qed.

Lemma smart_registration_keeps_other_schemes_witness :
  ns_schemes (register_smarts full_pool _smarts
                (mk_ns {[ "mysql" := mk_smart "MySQLDatabase" [] ]} ∅)).2 !! "mysql"
  = ns_schemes (mk_ns {[ "mysql" := mk_smart "MySQLDatabase" [] ]} ∅) !! "mysql".
Proof.
  apply (smart_registration_keeps_other_schemes full_pool
           (mk_ns {[ "mysql" := mk_smart "MySQLDatabase" [] ]} ∅) "mysql").
  apply (bool_decide_unpack ("mysql" ∉ concat _smarts.*2)). by vm_compute.
Defined.

Lemma execute_enter_fails_witness :
  execute (H := closed_pool) [VStr "SELECT 1"] ∅ (tt, [])
  = (Raise (HostError "OperationalError" "cannot connect"), (tt, [] ++ [DbEnter])).
Proof.
  apply (execute_enter_fails (H := closed_pool) [VStr "SELECT 1"] ∅ (tt, [])
           (HostError "OperationalError" "cannot connect") tt); reflexivity.
Defined.
